(** * VideoCRC: the per-frame checksum element of gstvideocrc.c

    A shallow embedding of [gstvideocrc.c] and the properties of its
    checksum engine.  C integers are carried by [Z] with the conversions of
    their type written out; the frame buffer is a mapped region whose loads
    are logged and fault outside the region; loops keep their test and their
    increment and run on fuel that is shown to suffice. *)

From Stdlib Require Import ZArith Lia List Bool String.
From stdpp Require Import base list.
Import ListNotations.
Local Open Scope Z_scope.

(** ** Machine integers *)

Module CInt.

(** [gint]: 32-bit two's complement.  Signed overflow is undefined in C;
    the model takes the wrap-around of the target. *)
Definition G_MAXINT : Z := 2 ^ 31 - 1.
Definition G_MININT : Z := - 2 ^ 31.
Definition to_gint (z : Z) : Z := (z + 2 ^ 31) mod 2 ^ 32 - 2 ^ 31.

(** [guint], [guint32], [unsigned int]: arithmetic modulo 2^32. *)
Definition G_MAXUINT : Z := 2 ^ 32 - 1.
Definition to_guint (z : Z) : Z := z mod 2 ^ 32.

(** [guint8] *)
Definition to_guint8 (z : Z) : Z := z mod 2 ^ 8.

Definition gint_add (a b : Z) : Z := to_gint (a + b).
Definition gint_mul (a b : Z) : Z := to_gint (a * b).

(** [a << n], [~a] on a 32-bit unsigned operand. *)
Definition guint_shl (a n : Z) : Z := to_guint (Z.shiftl a n).
Definition guint_not (a : Z) : Z := to_guint (Z.lnot a).

Definition is_gint (z : Z) : Prop := G_MININT <= z <= G_MAXINT.
Definition is_guint (z : Z) : Prop := 0 <= z <= G_MAXUINT.
Definition is_guint8 (z : Z) : Prop := 0 <= z < 256.

End CInt.
Import CInt.

(** ** Outcomes and the state monad of the element's code *)

Inductive outcome (A : Type) : Type :=
| Done (a : A)
| SegFault (addr : Z)   (* a load through [buf_ptr] outside the mapped region *)
| OutOfFuel.
Arguments Done {A} a.
Arguments SegFault {A} addr.
Arguments OutOfFuel {A}.

Definition M (S A : Type) : Type := S -> outcome (A * S).

Definition ret {S A : Type} (a : A) : M S A := fun s => Done (a, s).

Definition bind {S A B : Type} (m : M S A) (f : A -> M S B) : M S B :=
  fun s =>
    match m s with
    | Done (a, s') => f a s'
    | SegFault addr => SegFault addr
    | OutOfFuel => OutOfFuel
    end.

Definition modify {S : Type} (f : S -> S) : M S unit := fun s => Done (tt, f s).

Declare Scope cmd_scope.
Delimit Scope cmd_scope with cmd.
Notation "x <- m ;; k" := (bind m (fun x => k))
  (at level 100, m at next level, right associativity) : cmd_scope.
Notation "m ;; k" := (bind m (fun _ => k))
  (at level 100, right associativity) : cmd_scope.
Local Open Scope cmd_scope.

(** [for (i = i0; cond i; i = incr i) body]. *)
Fixpoint for_loop {S : Type} (fuel : nat) (cond : Z -> bool) (incr : Z -> Z)
    (body : Z -> M S unit) (i : Z) : M S unit :=
  match fuel with
  | O => fun _ => OutOfFuel
  | Datatypes.S fuel' =>
      if cond i then (body i ;; for_loop fuel' cond incr body (incr i))
      else ret tt
  end.

(** Fuel for a loop that counts from 0 up to [bound] in steps of at least 1:
    one test per iteration and a last one that fails. *)
Definition fuel_upto (bound : Z) : nat := Datatypes.S (Z.to_nat bound).

(** ** The element *)

(** GstState of the GstElement parent instance. *)
Inductive GstState : Type :=
| GST_STATE_VOID_PENDING
| GST_STATE_NULL
| GST_STATE_READY
| GST_STATE_PAUSED
| GST_STATE_PLAYING.

Inductive GstFlowReturn : Type :=
| GST_FLOW_OK
| GST_FLOW_NOT_LINKED
| GST_FLOW_FLUSHING
| GST_FLOW_EOS
| GST_FLOW_NOT_NEGOTIATED
| GST_FLOW_ERROR
| GST_FLOW_NOT_SUPPORTED.

(** One line [VideoFrame %d crc %08X]: the frame number and the checksum. *)
Record crc_line : Type := CrcLine { line_frame : Z; line_crc : Z }.

(** Modelled from the spec: struct GstVideocrc is declared in gstvideocrc.h,
    which is not part of the sources; the fields are the ones gstvideocrc.c
    reads and writes (the engine's polynomial mask, table, geometry, frame
    counter and log destination), with the types their uses show:
    [frame_num] is printed with %d (gint), [crc] with %08X and assigned from
    a guint32, [crc_mask] is read with g_value_get_uint, the geometry fields
    are assigned from gint locals and [crc32bit_table] is read through a
    [guint32 *] and indexed up to 255.  [gst_state] is GST_STATE of the
    parent GstElement.  An open [logfile] holds the lines written so far. *)
Record GstVideocrc : Type := MkVideocrc {
  gst_state : GstState;
  filename : option string;
  logfile : option (list crc_line);
  crc_mask : Z;
  frame_num : Z;
  crc : Z;
  crc32bit_table : list Z;
  width : Z;
  height : Z;
  stride_w : Z;
  stride_h : Z;
  offset : Z;
  size : Z
}.

Definition set_filename (v : option string) (x : GstVideocrc) : GstVideocrc :=
  MkVideocrc (gst_state x) v (logfile x) (crc_mask x) (frame_num x) (crc x)
    (crc32bit_table x) (width x) (height x) (stride_w x) (stride_h x)
    (offset x) (size x).
Definition set_logfile (v : option (list crc_line)) (x : GstVideocrc) : GstVideocrc :=
  MkVideocrc (gst_state x) (filename x) v (crc_mask x) (frame_num x) (crc x)
    (crc32bit_table x) (width x) (height x) (stride_w x) (stride_h x)
    (offset x) (size x).
Definition set_crc_mask (v : Z) (x : GstVideocrc) : GstVideocrc :=
  MkVideocrc (gst_state x) (filename x) (logfile x) v (frame_num x) (crc x)
    (crc32bit_table x) (width x) (height x) (stride_w x) (stride_h x)
    (offset x) (size x).
Definition set_frame_num (v : Z) (x : GstVideocrc) : GstVideocrc :=
  MkVideocrc (gst_state x) (filename x) (logfile x) (crc_mask x) v (crc x)
    (crc32bit_table x) (width x) (height x) (stride_w x) (stride_h x)
    (offset x) (size x).
Definition set_crc (v : Z) (x : GstVideocrc) : GstVideocrc :=
  MkVideocrc (gst_state x) (filename x) (logfile x) (crc_mask x) (frame_num x) v
    (crc32bit_table x) (width x) (height x) (stride_w x) (stride_h x)
    (offset x) (size x).
Definition set_crc32bit_table (v : list Z) (x : GstVideocrc) : GstVideocrc :=
  MkVideocrc (gst_state x) (filename x) (logfile x) (crc_mask x) (frame_num x)
    (crc x) v (width x) (height x) (stride_w x) (stride_h x)
    (offset x) (size x).
Definition set_geometry (w h sw sh off sz : Z) (x : GstVideocrc) : GstVideocrc :=
  MkVideocrc (gst_state x) (filename x) (logfile x) (crc_mask x) (frame_num x)
    (crc x) (crc32bit_table x) w h sw sh off sz.

(** ** Constants and macros *)

(** [WIDTH] is [8 * sizeof (gint)]; a gint has four bytes. *)
Definition WIDTH : Z := 8 * 4.
(** [(1 << (WIDTH - 1))] is computed in [int]. *)
Definition TOPBIT : Z := to_gint (Z.shiftl 1 (WIDTH - 1)).
Definition ALIGN128 : Z := 128.
Definition ALIGN32 : Z := 32.
(** [(((num) + (to-1)) & (~(to-1)))] on gint operands. *)
Definition ALIGN (num to : Z) : Z :=
  Z.land (gint_add num (to - 1)) (Z.lnot (to - 1)).
Definition GST_VIDEO_DEFAULT_CRC_MASK : Z := 0x04C11DB7.

(** ** gst_videocrc_reset, gst_videocrc_init_crc32bit_table, gst_videocrc_init *)

Definition gst_videocrc_reset (videocrc : GstVideocrc) : GstVideocrc :=
  set_logfile None
    (set_crc 0
       (set_frame_num 0
          (set_crc_mask (to_guint GST_VIDEO_DEFAULT_CRC_MASK) videocrc))).

(** The body of the inner loop, on the local [remainder]. *)
Definition crc32bit_table_bit (polynomial : Z) (j : Z) : M Z unit :=
  modify (fun remainder =>
    if negb (Z.land remainder (to_guint TOPBIT) =? 0)
    then Z.lxor (guint_shl remainder 1) polynomial
    else guint_shl remainder 1).

(** The body of the outer loop: [remainder] is local to the function, the
    table lives in the instance.  A store into [crc32bit_table[i]] is a list
    insert; the array has 256 entries and [i] stays below 256. *)
Definition crc32bit_table_entry (polynomial : Z) (i : Z) : M GstVideocrc unit :=
  fun videocrc =>
    match for_loop (fuel_upto 8) (fun j => j <? 8) (fun j => to_guint (j + 1))
            (crc32bit_table_bit polynomial) 0 (guint_shl i (WIDTH - 8)) with
    | Done (_, remainder) =>
        Done (tt, set_crc32bit_table
                    (<[Z.to_nat i := remainder]> (crc32bit_table videocrc))
                    videocrc)
    | SegFault a => SegFault a
    | OutOfFuel => OutOfFuel
    end.

Definition gst_videocrc_init_crc32bit_table : M GstVideocrc unit :=
  fun videocrc =>
    let polynomial := to_guint (crc_mask videocrc) in
    for_loop (fuel_upto 256) (fun i => i <? 256) (fun i => to_guint (i + 1))
      (crc32bit_table_entry polynomial) 0 videocrc.

Definition gst_videocrc_init : M GstVideocrc unit :=
  fun videocrc => gst_videocrc_init_crc32bit_table (gst_videocrc_reset videocrc).

(** ** gst_videocrc_set_info, gst_videocrc_start, gst_videocrc_stop *)

(** The part of GstVideoInfo that set_info reads: GST_VIDEO_INFO_WIDTH,
    _HEIGHT, _SIZE and _PLANE_OFFSET (info, n). *)
Record GstVideoInfo : Type := MkVideoInfo {
  info_width : Z;
  info_height : Z;
  info_size : Z;
  info_plane_offset : nat -> Z
}.

Definition gst_videocrc_set_info (in_info : GstVideoInfo)
    (videocrc : GstVideocrc) : bool * GstVideocrc :=
  let width := to_gint (info_width in_info) in
  let height := to_gint (info_height in_info) in
  let size := to_gint (info_size in_info) in
  let stride_w := ALIGN width ALIGN128 in
  let stride_h := ALIGN height ALIGN32 in
  let offset := to_gint (info_plane_offset in_info 1) in
  (true, set_geometry width height stride_w stride_h offset size videocrc).

(** [fopen_ok] tells whether fopen (filename, "w+") yields a stream; the
    stream starts empty. *)
Definition gst_videocrc_start (fopen_ok : bool) (videocrc : GstVideocrc)
    : bool * GstVideocrc :=
  match filename videocrc with
  | Some _ => (true, set_logfile (if fopen_ok then Some [] else None) videocrc)
  | None => (true, set_logfile None videocrc)
  end.

Definition gst_videocrc_stop (videocrc : GstVideocrc) : bool * GstVideocrc :=
  match logfile videocrc with
  | Some _ => (true, set_logfile None videocrc)
  | None => (true, videocrc)
  end.

(** ** Frame buffers *)

Record GstIonBufFdMeta : Type := MkIonMeta {
  ion_fd : Z;
  ion_size : Z;
  ion_offset : Z
}.

(** A buffer as transform_frame_ip sees it: the metadata returned by
    gst_buffer_get_ionfd_meta (NULL when absent), the bytes of the object
    behind the descriptor ([None] when the descriptor cannot be mapped) and
    the bytes gst_buffer_map exposes. *)
Record GstBuffer : Type := MkBuffer {
  ionfd_meta : option GstIonBufFdMeta;
  fd_memory : option (list Z);
  map_data : list Z
}.

(** What mmap returns: MAP_FAILED or a region of bytes. *)
Inductive mapping : Type :=
| MAP_FAILED
| Mapped (region : list Z).

(** mmap (NULL, length, PROT_READ|PROT_WRITE, MAP_SHARED, fd, offset): a
    zero length is refused; the region holds at most [length] bytes of the
    object from [offset] on. *)
Definition mmap (memory : option (list Z)) (length offset : Z) : mapping :=
  match memory with
  | None => MAP_FAILED
  | Some bytes =>
      if length =? 0 then MAP_FAILED
      else Mapped (take (Z.to_nat length) (drop (Z.to_nat offset) bytes))
  end.

Definition mapped_size (buf_ptr : mapping) : Z :=
  match buf_ptr with
  | MAP_FAILED => 0
  | Mapped region => Z.of_nat (length region)
  end.

(** ** gst_videocrc_transform_frame_ip *)

(** The locals the loops change: [CRC], the luma column [k], and the log of
    the offsets dereferenced through the buffer pointer, oldest first. *)
Record locals : Type := MkLocals {
  CRC : Z;
  k : Z;
  derefs : list Z
}.

Definition set_CRC (v : Z) (l : locals) : locals := MkLocals v (k l) (derefs l).
Definition set_k (v : Z) (l : locals) : locals := MkLocals (CRC l) v (derefs l).
Definition log_deref (off : Z) (l : locals) : locals :=
  MkLocals (CRC l) (k l) (derefs l ++ [off]).

(** [buf_ptr[off]] read into a guint8. *)
Definition load (buf_ptr : mapping) (off : Z) : M locals Z :=
  fun l =>
    match buf_ptr with
    | MAP_FAILED => SegFault off
    | Mapped region =>
        if off <? 0 then SegFault off
        else match region !! Z.to_nat off with
             | Some b => Done (to_guint8 b, log_deref off l)
             | None => SegFault off
             end
    end.

(** [k++] *)
Definition k_post_incr : M locals Z :=
  fun l => Done (k l, set_k (gint_add (k l) 1) l).

(** [CRC32Table[crc_pos]], read through a [guint32 *]. *)
Definition table_at (CRC32Table : list Z) (crc_pos : Z) : Z :=
  to_guint (CRC32Table !!! Z.to_nat crc_pos).

(** [crc_pos = ((guint32) (CRC >> 24) ^ pix) & 0xFF;
     CRC = (CRC << 8) ^ CRC32Table[crc_pos];] *)
Definition crc_pos_planar (CRC pix : Z) : Z :=
  Z.land (Z.lxor (to_guint (Z.shiftr CRC 24)) pix) 0xFF.
Definition crc_step_planar (CRC32Table : list Z) (CRC pix : Z) : Z :=
  Z.lxor (guint_shl CRC 8) (table_at CRC32Table (crc_pos_planar CRC pix)).

(** [CRC = (CRC << 8) ^ CRC32Table[(CRC >> 24) ^ map_info.data[i]];] *)
Definition crc_pos_linear (CRC byte : Z) : Z :=
  Z.lxor (Z.shiftr CRC 24) byte.
Definition crc_step_linear (CRC32Table : list Z) (CRC byte : Z) : Z :=
  Z.lxor (guint_shl CRC 8) (table_at CRC32Table (crc_pos_linear CRC byte)).

Definition crc_update (CRC32Table : list Z) (pix : Z) : M locals unit :=
  modify (fun l => set_CRC (crc_step_planar CRC32Table (CRC l) pix) l).

Definition crc_complement : M locals unit :=
  modify (fun l => set_CRC (guint_not (CRC l)) l).

Section Planes.
Variable buf_ptr : mapping.
Variable CRC32Table : list Z.
Variables width height stride_w stride_h : Z.

(* compute Luma CRC *)
Definition luma_pair (i j : Z) : M locals unit :=
  k1 <- k_post_incr ;;
  LumaPixVal1 <- load buf_ptr (gint_add (gint_mul i stride_w) k1) ;;
  k2 <- k_post_incr ;;
  LumaPixVal2 <- load buf_ptr (gint_add (gint_mul i stride_w) k2) ;;
  crc_update CRC32Table LumaPixVal1 ;;
  crc_update CRC32Table LumaPixVal2.

Definition luma_row (i : Z) : M locals unit :=
  modify (set_k 0) ;;
  for_loop (fuel_upto (Z.shiftr width 1)) (fun j => j <? Z.shiftr width 1)
    (fun j => gint_add j 1) (luma_pair i) 0.

Definition luma_plane : M locals unit :=
  for_loop (fuel_upto height) (fun i => i <? height)
    (fun i => gint_add i 1) luma_row 0 ;;
  crc_complement.

(* compute Chroma U CRC *)
Definition chroma_u_sample (i j : Z) : M locals unit :=
  CbPixVal <- load buf_ptr
    (gint_add (gint_add (gint_mul stride_w stride_h) (gint_mul i stride_w)) j) ;;
  crc_update CRC32Table CbPixVal.

Definition chroma_u_row (i : Z) : M locals unit :=
  for_loop (fuel_upto width) (fun j => j <? width)
    (fun j => gint_add j 2) (chroma_u_sample i) 0.

Definition chroma_u_plane : M locals unit :=
  for_loop (fuel_upto (Z.quot height 2)) (fun i => i <? Z.quot height 2)
    (fun i => gint_add i 1) chroma_u_row 0 ;;
  crc_complement.

(* compute Chroma V CRC *)
Definition chroma_v_sample (i j : Z) : M locals unit :=
  CrPixVal <- load buf_ptr
    (gint_add
       (gint_add (gint_add (gint_mul stride_w stride_h) (gint_mul i stride_w)) j)
       1) ;;
  crc_update CRC32Table CrPixVal.

Definition chroma_v_row (i : Z) : M locals unit :=
  for_loop (fuel_upto width) (fun j => j <? width)
    (fun j => gint_add j 2) (chroma_v_sample i) 0.

Definition chroma_v_plane : M locals unit :=
  for_loop (fuel_upto (Z.quot height 2)) (fun i => i <? Z.quot height 2)
    (fun i => gint_add i 1) chroma_v_row 0 ;;
  crc_complement.

(** The branch taken when the buffer carries ion metadata, after mmap. *)
Definition planar_crc : M locals unit :=
  luma_plane ;; chroma_u_plane ;; chroma_v_plane.
End Planes.

(** The branch taken without ion metadata: one pass over map_info.data.  The
    counter is a gint compared with the gsize map_info.size. *)
Definition linear_byte (CRC32Table : list Z) (data : list Z) (i : Z) : M locals unit :=
  byte <- load (Mapped data) i ;;
  modify (fun l => set_CRC (crc_step_linear CRC32Table (CRC l) byte) l).

Definition linear_crc (CRC32Table : list Z) (data : list Z) : M locals unit :=
  for_loop (fuel_upto (Z.of_nat (length data)))
    (fun i => i mod 2 ^ 64 <? Z.of_nat (length data))
    (fun i => gint_add i 1) (linear_byte CRC32Table data) 0 ;;
  crc_complement.

(** The end of the function, from [videocrc->crc = CRC] on: the checksum is
    stored, the frame counter incremented, and the line handed to
    GST_INFO_OBJECT goes to the log file too when one is open. *)
Definition frame_record (CRC : Z) (videocrc : GstVideocrc)
    : (GstFlowReturn * crc_line) * GstVideocrc :=
  let videocrc := set_crc CRC videocrc in
  let videocrc := set_frame_num (gint_add (frame_num videocrc) 1) videocrc in
  let line := CrcLine (frame_num videocrc) (crc videocrc) in
  let videocrc :=
    match logfile videocrc with
    | Some lines => set_logfile (Some (lines ++ [line])) videocrc
    | None => videocrc
    end in
  ((GST_FLOW_OK, line), videocrc).

(** The checksum computation of the function: the branch on the ion
    metadata, from cleared locals. *)
Definition frame_crc (buf : GstBuffer) (videocrc : GstVideocrc)
    : outcome (unit * locals) :=
  let CRC32Table := crc32bit_table videocrc in
  match ionfd_meta buf with
  | Some ion_meta =>
      let size := to_guint (ion_size ion_meta) in
      let offset := to_guint (ion_offset ion_meta) in
      let buf_ptr := mmap (fd_memory buf) size offset in
      planar_crc buf_ptr CRC32Table (width videocrc) (height videocrc)
        (stride_w videocrc) (stride_h videocrc) (MkLocals 0 0 [])
  | None => linear_crc CRC32Table (map_data buf) (MkLocals 0 0 [])
  end.

(** The function proper.  It returns the flow value and the line handed to
    GST_INFO_OBJECT. *)
Definition gst_videocrc_transform_frame_ip (buf : GstBuffer)
    : M GstVideocrc (GstFlowReturn * crc_line) :=
  fun videocrc0 =>
    let videocrc := set_crc 0 videocrc0 in
    match frame_crc buf videocrc with
    | Done (_, l) => Done (frame_record (CRC l) videocrc)
    | SegFault addr => SegFault addr
    | OutOfFuel => OutOfFuel
    end.

(** Frames pushed one after the other through the same instance; the lines
    come out in order. *)
Fixpoint process_frames (bufs : list GstBuffer) : M GstVideocrc (list crc_line) :=
  match bufs with
  | [] => ret []
  | buf :: rest =>
      r <- gst_videocrc_transform_frame_ip buf ;;
      lines <- process_frames rest ;;
      ret (snd r :: lines)
  end.

(** ** gst_videocrc_set_location, gst_videocrc_set_property *)

(** The element's state is read under the object lock; on the permitted
    states the old name is freed and replaced by a copy of [location], or
    cleared for NULL.  On the others the function warns and returns FALSE. *)
Definition gst_videocrc_set_location (location : option string)
    (videocrc : GstVideocrc) : bool * GstVideocrc :=
  match gst_state videocrc with
  | GST_STATE_READY | GST_STATE_NULL =>
      match location with
      | None => (true, set_filename None videocrc)
      | Some s => (true, set_filename (Some s) videocrc)
      end
  | _ => (false, videocrc)
  end.

Definition PROP_0 : Z := 0.
Definition PROP_LOCATION : Z := 1.
Definition PROP_CRC_MASK : Z := 2.

Inductive GValue : Type :=
| GValueString (s : option string)
| GValueUint (v : Z).

Definition g_value_get_string (value : GValue) : option string :=
  match value with GValueString s => s | GValueUint _ => None end.
Definition g_value_get_uint (value : GValue) : Z :=
  match value with GValueUint v => to_guint v | GValueString _ => 0 end.

Definition gst_videocrc_set_property (prop_id : Z) (value : GValue)
    (videocrc : GstVideocrc) : GstVideocrc :=
  if prop_id =? PROP_LOCATION then
    snd (gst_videocrc_set_location (g_value_get_string value) videocrc)
  else if prop_id =? PROP_CRC_MASK then
    set_crc_mask (g_value_get_uint value) videocrc
  else videocrc.

Definition gst_videocrc_get_property (prop_id : Z) (videocrc : GstVideocrc)
    : option GValue :=
  if prop_id =? PROP_LOCATION then Some (GValueString (filename videocrc))
  else if prop_id =? PROP_CRC_MASK then Some (GValueUint (crc_mask videocrc))
  else None.

(** ** Reference descriptions *)

(** [0, 1, ..., n-1] *)
Definition zrange (n : Z) : list Z := map Z.of_nat (seq 0 (Z.to_nat n)).

(** The even columns of [0, n). *)
Definition even_cols (n : Z) : list Z := List.filter Z.even (zrange n).

(** The byte of a region at an offset, as a guint8. *)
Definition peek (region : list Z) (off : Z) : Z :=
  to_guint8 (region !!! Z.to_nat off).

(** The table update folded over a sequence of samples. *)
Definition crc_fold (CRC32Table : list Z) (seed : Z) (samples : list Z) : Z :=
  fold_left (crc_step_planar CRC32Table) samples seed.

(** Offsets of the first [cols] columns of [rows] rows of stride [stride_w]. *)
Definition plane_offsets (stride_w rows cols : Z) : list Z :=
  flat_map (fun r => map (fun c => r * stride_w + c) (zrange cols)) (zrange rows).

(** Luma offsets as the element description has them: every column of
    every row. *)
Definition luma_offsets (width height stride_w : Z) : list Z :=
  plane_offsets stride_w height width.

(** Luma offsets the pair loop walks: [width >> 1] pairs per row. *)
Definition luma_pair_offsets (width height stride_w : Z) : list Z :=
  plane_offsets stride_w height (2 * Z.shiftr width 1).

(** Offsets [base + i * stride_w + j + d] for the chroma rows [i] in
    [0, height / 2) and the even columns [j] in [0, width). *)
Definition chroma_offsets (base d width height stride_w : Z) : list Z :=
  flat_map (fun i => map (fun j => base + i * stride_w + j + d) (even_cols width))
    (zrange (Z.quot height 2)).

(** The padded planes lie inside [n] mapped bytes, and [n] is within gint:
    rows hold the columns (rounded up to a pair), the padded height holds the
    rows, and luma plus half as many chroma rows end at or before [n]. *)
Definition planes_fit (width height stride_w stride_h n : Z) : Prop :=
  0 <= width /\ 0 <= height /\
  width + width mod 2 <= stride_w <= G_MAXINT /\
  height <= stride_h <= G_MAXINT /\
  stride_w * (stride_h + Z.quot height 2) <= n <= G_MAXINT.

(** Every load of a run, the faulting one included, is inside [0, n). *)
Definition loads_below (n : Z) (r : outcome (unit * locals)) : Prop :=
  match r with
  | Done (_, l) => Forall (fun off => 0 <= off < n) (derefs l)
  | SegFault addr => 0 <= addr < n
  | OutOfFuel => False
  end.

(** The mapping transform_frame_ip makes for a buffer with ion metadata. *)
Definition frame_mapping (buf : GstBuffer) (ion_meta : GstIonBufFdMeta) : mapping :=
  mmap (fd_memory buf) (to_guint (ion_size ion_meta)) (to_guint (ion_offset ion_meta)).

(** The run of the planar branch on a frame, from the function's entry. *)
Definition planar_run (videocrc : GstVideocrc) (buf_ptr : mapping)
    : outcome (unit * locals) :=
  planar_crc buf_ptr (crc32bit_table videocrc) (width videocrc) (height videocrc)
    (stride_w videocrc) (stride_h videocrc) (MkLocals 0 0 []).

(** A frame the element can walk: a mapped region that holds the padded
    planes, or a linear buffer whose size a gint counter reaches. *)
Definition frame_ok (videocrc : GstVideocrc) (buf : GstBuffer) : Prop :=
  match ionfd_meta buf with
  | Some ion_meta =>
      exists region,
        frame_mapping buf ion_meta = Mapped region /\
        planes_fit (width videocrc) (height videocrc) (stride_w videocrc)
          (stride_h videocrc) (Z.of_nat (length region))
  | None => Z.of_nat (length (map_data buf)) <= G_MAXINT
  end.

(** The remainder of one byte value, bit by bit: the value in the top byte
    of a 32-bit word, then eight times a shift, with the polynomial folded in
    when the top bit was set. *)
Definition crc_bit_step (P r : Z) : Z :=
  if Z.testbit r 31 then to_guint (Z.lxor (Z.shiftl r 1) P)
  else to_guint (Z.shiftl r 1).

Definition crc_remainder (P i : Z) : Z :=
  Nat.iter 8 (crc_bit_step P) (to_guint (Z.shiftl i 24)).

(** The table after the entries below [i] were stored. *)
Definition table_upto (P i : Z) (old : list Z) : list Z :=
  map (crc_remainder P) (zrange i) ++ drop (Z.to_nat i) old.

(** The locals after the samples at [offs] went through the table update:
    the checksum folded over their bytes, the offsets logged. *)
Definition consume (CRC32Table region offs : list Z) (l : locals) : locals :=
  MkLocals (crc_fold CRC32Table (CRC l) (map (peek region) offs)) (k l)
    (derefs l ++ offs).

(** The locals after a whole plane: its samples consumed, the checksum
    complemented, [k] wherever the loops left it. *)
Definition plane_done (CRC32Table region offs : list Z) (k' : Z) (l : locals)
    : locals :=
  MkLocals (guint_not (crc_fold CRC32Table (CRC l) (map (peek region) offs))) k'
    (derefs l ++ offs).

(** ** Statements about the chroma base and the states they are read in *)

(** Both chroma loops read their samples at [base + i * stride_w + j], the
    second one byte further, whatever the locals they start from. *)
Definition chroma_read_at (base : Z) (videocrc : GstVideocrc) (buf_ptr : mapping)
    : Prop :=
  forall l,
    exists l_u l_v,
      chroma_u_plane buf_ptr (crc32bit_table videocrc) (width videocrc)
        (height videocrc) (stride_w videocrc) (stride_h videocrc) l
      = Done (tt, l_u) /\
      derefs l_u = derefs l ++
        chroma_offsets base 0 (width videocrc) (height videocrc) (stride_w videocrc) /\
      chroma_v_plane buf_ptr (crc32bit_table videocrc) (width videocrc)
        (height videocrc) (stride_w videocrc) (stride_h videocrc) l
      = Done (tt, l_v) /\
      derefs l_v = derefs l ++
        chroma_offsets base 1 (width videocrc) (height videocrc) (stride_w videocrc).

(** The luma loop reads exactly the offsets of a list, in its order. *)
Definition luma_reads (offs : list Z) (videocrc : GstVideocrc) (buf_ptr : mapping)
    : Prop :=
  exists l',
    luma_plane buf_ptr (crc32bit_table videocrc) (width videocrc)
      (height videocrc) (stride_w videocrc) (MkLocals 0 0 [])
    = Done (tt, l') /\ derefs l' = offs.

(** A state in which the location may be changed: NULL (unconfigured) or
    READY. *)
Definition location_change_allowed (state : GstState) : bool :=
  match state with
  | GST_STATE_NULL | GST_STATE_READY => true
  | _ => false
  end.

(** The state a command leaves, or the state it started from when it did
    not finish. *)
Definition state_after {S : Type} (m : M S unit) (s : S) : S :=
  match m s with
  | Done (_, s') => s'
  | _ => s
  end.

(** An instance as g_object_new hands it to gst_videocrc_init: zeroed. *)
Definition zeroed_instance : GstVideocrc :=
  MkVideocrc GST_STATE_NULL None None 0 0 0 (replicate 256 0) 0 0 0 0 0 0.

(** The instance gst_videocrc_init leaves, evaluated once. *)
Definition new_instance : GstVideocrc :=
  Eval vm_compute in state_after gst_videocrc_init zeroed_instance.

(** A new instance after a format negotiation. *)
Definition negotiated (in_info : GstVideoInfo) : GstVideocrc :=
  snd (gst_videocrc_set_info in_info new_instance).

(** NV12 as GStreamer lays it out by default: rows padded to 4 bytes, the
    second plane after [GST_ROUND_UP_2 (height)] rows. *)
Definition nv12_info (width height : Z) : GstVideoInfo :=
  let stride := 4 * ((width + 3) / 4) in
  let rows := 2 * ((height + 1) / 2) in
  MkVideoInfo width height (stride * rows + stride * (rows / 2))
    (fun plane => match plane with 1%nat => stride * rows | _ => 0 end).

(** A frame with ion metadata for [n] bytes at offset 0 of a descriptor. *)
Definition ion_frame (n : Z) (memory : option (list Z)) : GstBuffer :=
  MkBuffer (Some (MkIonMeta 3 n 0)) memory [].

(** An instance that is processing, with a log open on "a.log", and one
    that is ready with the same name stored. *)
Definition playing_instance : GstVideocrc :=
  MkVideocrc GST_STATE_PLAYING (Some "a.log"%string) (Some [])
    (crc_mask new_instance) 0 0 (crc32bit_table new_instance) 0 0 0 0 0 0.

Definition ready_instance : GstVideocrc :=
  MkVideocrc GST_STATE_READY (Some "a.log"%string) None
    (crc_mask new_instance) 0 0 (crc32bit_table new_instance) 0 0 0 0 0 0.

(** [n] bytes of zeros. *)
Definition zero_region (n : Z) : list Z := replicate (Z.to_nat n) 0.

(** Every load of the planar branch on a frame stays below the size of the
    mapped region. *)
Definition planar_loads_in_bounds (videocrc : GstVideocrc) (buf_ptr : mapping)
    : Prop :=
  loads_below (mapped_size buf_ptr) (planar_run videocrc buf_ptr).

(** ** Tactics *)

(** [lia] with the equations of division and remainder. *)
Ltac Zify.zify_post_hook ::= Z.to_euclidean_division_equations.

(** A closed conjunction of comparisons between numerals. *)
Ltac planes_fit_by_computation :=
  vm_compute; repeat split; intros Hcmp; discriminate Hcmp.

(** ** Descriptions used by the further properties *)

(** The checksum of the linear branch over a sequence of bytes: the update
    of that branch folded from 0, then the complement. *)
Definition linear_checksum (CRC32Table data : list Z) : Z :=
  guint_not (fold_left (crc_step_linear CRC32Table) (map to_guint8 data) 0).

(** All the offsets the planar branch walks, in its order. *)
Definition planar_offsets (videocrc : GstVideocrc) : list Z :=
  luma_pair_offsets (width videocrc) (height videocrc) (stride_w videocrc) ++
  chroma_offsets (stride_w videocrc * stride_h videocrc) 0 (width videocrc)
    (height videocrc) (stride_w videocrc) ++
  chroma_offsets (stride_w videocrc * stride_h videocrc) 1 (width videocrc)
    (height videocrc) (stride_w videocrc).

(** Two instances with the same configuration: everything but the
    checksum, the frame counter and the log file. *)
Definition same_configuration (a b : GstVideocrc) : Prop :=
  gst_state a = gst_state b /\ filename a = filename b /\
  crc_mask a = crc_mask b /\ crc32bit_table a = crc32bit_table b /\
  width a = width b /\ height a = height b /\
  stride_w a = stride_w b /\ stride_h a = stride_h b /\
  offset a = offset b /\ size a = size b.

(** The log file after some lines were written, if one is open. *)
Definition log_after (lines : list crc_line) (log : option (list crc_line))
    : option (list crc_line) :=
  match log with
  | Some old => Some (old ++ lines)
  | None => None
  end.

(** A region of zeros with one byte set. *)
Definition zero_region_but (n : Z) (off byte : Z) : list Z :=
  <[Z.to_nat off := byte]> (zero_region n).

(** ** Concrete runs *)

(** What a command returns, or a default when it does not finish. *)
Definition result_or {S A : Type} (default : A * S) (o : outcome (A * S)) : A * S :=
  match o with
  | Done r => r
  | _ => default
  end.

(** Two frames, a linear one and a mapped 2x2 one, through an instance
    negotiated for NV12 2x2 with a log open. *)
Definition example_frames : list GstBuffer :=
  [MkBuffer None None [1; 2; 3]; ion_frame 6144 (Some (zero_region 6144))].

Definition example_start : GstVideocrc :=
  Eval vm_compute in
    snd (gst_videocrc_start true
           (snd (gst_videocrc_set_location (Some "crc.log"%string)
                   (negotiated (nv12_info 2 2))))).

Definition example_run : list crc_line * GstVideocrc :=
  Eval vm_compute in
    result_or ([], example_start) (process_frames example_frames example_start).

(** One more linear frame, through the instance as it was at the start. *)
Definition example_buffer : GstBuffer := MkBuffer None None [7; 7].

Definition example_single : (GstFlowReturn * crc_line) * GstVideocrc :=
  Eval vm_compute in
    result_or ((GST_FLOW_ERROR, CrcLine 0 0), example_start)
      (gst_videocrc_transform_frame_ip example_buffer example_start).

(** ** Tables that tell bytes apart *)

(** No two elements of a list are equal. *)
Fixpoint all_apart (l : list Z) : bool :=
  match l with
  | [] => true
  | x :: rest => forallb (fun y => negb (x =? y)) rest && all_apart rest
  end.

(** The low bytes of the 256 entries are all different. *)
Definition low_bytes_distinct (CRC32Table : list Z) : bool :=
  all_apart (map (fun i => table_at CRC32Table i mod 2 ^ 8) (zrange 256)).

(** ** Reporting a failure *)



(** * Properties *)

(** ** Integer conversions *)

Lemma to_gint_small (z : Z) : is_gint z -> to_gint z = z.
Proof.
  unfold is_gint, G_MININT, G_MAXINT, to_gint. intros Hz.
  rewrite Z.mod_small; lia.
Qed.

Lemma to_guint_small (z : Z) : is_guint z -> to_guint z = z.
Proof.
  unfold is_guint, G_MAXUINT, to_guint. intros Hz.
  apply Z.mod_small. lia.
Qed.

Lemma to_guint_range (z : Z) : is_guint (to_guint z).
Proof.
  unfold is_guint, G_MAXUINT, to_guint.
  pose proof (Z.mod_pos_bound z (2 ^ 32) ltac:(lia)). lia.
Qed.

Lemma to_guint8_range (z : Z) : is_guint8 (to_guint8 z).
Proof.
  unfold is_guint8, to_guint8.
  pose proof (Z.mod_pos_bound z (2 ^ 8) ltac:(lia)). lia.
Qed.

Lemma gint_add_small (a b : Z) : is_gint (a + b) -> gint_add a b = a + b.
Proof. apply to_gint_small. Qed.

Lemma gint_mul_small (a b : Z) : is_gint (a * b) -> gint_mul a b = a * b.
Proof. apply to_gint_small. Qed.

(** A value is below 2^n exactly when it has no bit at or above n. *)
Lemma below_pow2_bits (n a : Z) :
  0 <= n -> 0 <= a ->
  (forall m, n <= m -> Z.testbit a m = false) -> a < 2 ^ n.
Proof.
  intros Hn Ha Hbits.
  destruct (Z.eq_dec a 0) as [->|Hne]; [apply Z.pow_pos_nonneg; lia|].
  apply Z.log2_lt_pow2; [lia|].
  destruct (Z_lt_le_dec (Z.log2 a) n) as [|Hle]; [assumption|].
  specialize (Hbits _ Hle). rewrite Z.bit_log2 in Hbits by lia. discriminate.
Qed.

Lemma bits_above_pow2 (n a m : Z) :
  0 <= a < 2 ^ n -> n <= m -> Z.testbit a m = false.
Proof.
  intros [Ha Hlt] Hm.
  destruct (Z.eq_dec a 0) as [->|Hne]; [apply Z.bits_0|].
  apply Z.bits_above_log2; [lia|].
  assert (0 <= n) by (destruct (Z_lt_le_dec n 0); [rewrite Z.pow_neg_r in Hlt by lia; lia|lia]).
  assert (Z.log2 a < n) by (apply Z.log2_lt_pow2; lia). lia.
Qed.

Lemma lxor_below_pow2 (n a b : Z) :
  0 <= n -> 0 <= a < 2 ^ n -> 0 <= b < 2 ^ n -> 0 <= Z.lxor a b < 2 ^ n.
Proof.
  intros Hn Ha Hb.
  assert (0 <= Z.lxor a b) by (apply Z.lxor_nonneg; lia).
  split; [assumption|].
  apply below_pow2_bits; [assumption..|].
  intros m Hm. rewrite Z.lxor_spec.
  rewrite (bits_above_pow2 n a m), (bits_above_pow2 n b m) by assumption.
  reflexivity.
Qed.

Lemma shiftr_24_byte (c : Z) : is_guint c -> 0 <= Z.shiftr c 24 < 2 ^ 8.
Proof.
  unfold is_guint, G_MAXUINT. intros Hc.
  rewrite Z.shiftr_div_pow2 by lia.
  split; [apply Z.div_pos; lia|].
  apply Z.div_lt_upper_bound; lia.
Qed.

Lemma land_topbit (r : Z) :
  (Z.land r (to_guint TOPBIT) =? 0) = negb (Z.testbit r 31).
Proof.
  change (to_guint TOPBIT) with (2 ^ 31).
  destruct (Z.testbit r 31) eqn:Hbit; simpl.
  - apply Z.eqb_neq. intros Hz.
    assert (Hb : Z.testbit (Z.land r (2 ^ 31)) 31 = true).
    { rewrite Z.land_spec, Hbit, Z.pow2_bits_true by lia. reflexivity. }
    rewrite Hz, Z.bits_0 in Hb. discriminate.
  - apply Z.eqb_eq. apply Z.bits_inj'. intros m Hm.
    rewrite Z.land_spec, Z.bits_0, Z.pow2_bits_eqb by lia.
    destruct (Z.eqb_spec 31 m) as [<-|]; [rewrite Hbit; reflexivity|].
    apply andb_false_r.
Qed.

(** ** Loops *)

Lemma bind_done {S A B : Type} (m : M S A) (f : A -> M S B) (s s' : S) (a : A) :
  m s = Done (a, s') -> bind m f s = f a s'.
Proof. unfold bind. intros ->. reflexivity. Qed.

(** The loop rule: an invariant that every iteration re-establishes after a
    strict increase of the counter below [bound] is met at the exit, and the
    fuel of [bound - i] tests and one more is not used up. *)
Lemma for_loop_inv {S : Type} (Inv : Z -> S -> Prop) (bound : Z)
    (cond : Z -> bool) (incr : Z -> Z) (body : Z -> M S unit) :
  (forall i s, Inv i s -> cond i = true ->
     i < bound /\
     exists s', body i s = Done (tt, s') /\ i < incr i /\ Inv (incr i) s') ->
  forall fuel i s,
    (Z.to_nat (bound - i) < fuel)%nat -> Inv i s ->
    exists i' s',
      for_loop fuel cond incr body i s = Done (tt, s') /\
      cond i' = false /\ Inv i' s'.
Proof.
  intros Hstep fuel.
  induction fuel as [|fuel IH]; intros i s Hfuel Hinv; [lia|].
  simpl. destruct (cond i) eqn:Hc.
  - destruct (Hstep i s Hinv Hc) as (Hlt & s' & Hbody & Hincr & Hinv').
    rewrite (bind_done _ _ _ _ _ Hbody).
    apply IH; [lia|assumption].
  - exists i, s. split; [reflexivity|]. split; assumption.
Qed.

(** ** Ranges *)

Lemma zrange_succ (n : Z) : 0 <= n -> zrange (n + 1) = zrange n ++ [n].
Proof.
  intros Hn. unfold zrange.
  replace (Z.to_nat (n + 1)) with (Datatypes.S (Z.to_nat n)) by lia.
  rewrite seq_S, map_app. simpl. rewrite Z2Nat.id by assumption. reflexivity.
Qed.

Lemma zrange_nonpos (n : Z) : n <= 0 -> zrange n = [].
Proof.
  intros Hn. unfold zrange. replace (Z.to_nat n) with 0%nat by lia. reflexivity.
Qed.

Lemma zrange_length (n : Z) : length (zrange n) = Z.to_nat n.
Proof. unfold zrange. rewrite length_map, length_seq. reflexivity. Qed.

Lemma zrange_lookup (n i : Z) :
  0 <= i < n -> zrange n !! Z.to_nat i = Some i.
Proof.
  intros Hi. unfold zrange. rewrite list_lookup_fmap.
  rewrite lookup_seq_lt by lia. simpl. f_equal. lia.
Qed.

Lemma zrange_In (n x : Z) : In x (zrange n) <-> 0 <= x < n.
Proof.
  unfold zrange. rewrite in_map_iff. split.
  - intros (m & <- & Hin). apply in_seq in Hin. lia.
  - intros Hx. exists (Z.to_nat x). split; [lia|]. apply in_seq. lia.
Qed.

Lemma even_cols_step (j : Z) :
  0 <= j -> Z.even j = true -> even_cols (j + 2) = even_cols j ++ [j].
Proof.
  intros Hj Hev. unfold even_cols.
  replace (j + 2) with (j + 1 + 1) by lia.
  rewrite (zrange_succ (j + 1)), (zrange_succ j) by lia.
  rewrite !List.filter_app. simpl.
  rewrite Hev. replace (Z.even (j + 1)) with false.
  - simpl. rewrite app_nil_r. reflexivity.
  - rewrite Z.even_add, Hev. reflexivity.
Qed.

Lemma even_cols_odd_end (w : Z) :
  0 <= w -> Z.even w = false -> even_cols (w + 1) = even_cols w.
Proof.
  intros Hw Hodd. unfold even_cols.
  rewrite zrange_succ, List.filter_app by assumption. simpl.
  rewrite Hodd. simpl. apply app_nil_r.
Qed.

(** ** The table generator *)

Lemma to_guint_lxor (a b : Z) :
  to_guint (Z.lxor a b) = Z.lxor (to_guint a) (to_guint b).
Proof.
  unfold to_guint. apply Z.bits_inj'. intros m Hm.
  rewrite Z.lxor_spec, !Z.testbit_mod_pow2, Z.lxor_spec by lia.
  destruct (m <? 32); reflexivity.
Qed.

(** The inner loop's body is the bit step of the description. *)
Lemma crc32bit_table_bit_step (P j r : Z) :
  is_guint P ->
  crc32bit_table_bit P j r = Done (tt, crc_bit_step P r).
Proof.
  intros HP. unfold crc32bit_table_bit, modify, crc_bit_step, guint_shl.
  rewrite land_topbit, negb_involutive.
  destruct (Z.testbit r 31); [|reflexivity].
  rewrite to_guint_lxor, (to_guint_small P HP). reflexivity.
Qed.

Lemma crc32bit_table_bits (P r0 : Z) :
  is_guint P ->
  for_loop (fuel_upto 8) (fun j => j <? 8) (fun j => to_guint (j + 1))
    (crc32bit_table_bit P) 0 r0
  = Done (tt, Nat.iter 8 (crc_bit_step P) r0).
Proof.
  intros HP.
  destruct (for_loop_inv
              (fun j r => 0 <= j <= 8 /\ r = Nat.iter (Z.to_nat j) (crc_bit_step P) r0)
              8 (fun j => j <? 8) (fun j => to_guint (j + 1))
              (crc32bit_table_bit P)) with (fuel := fuel_upto 8) (i := 0) (s := r0)
    as (j' & r' & Hrun & Hexit & Hj & ->).
  - intros j r [Hj ->] Hc. apply Z.ltb_lt in Hc. split; [assumption|].
    exists (crc_bit_step P (Nat.iter (Z.to_nat j) (crc_bit_step P) r0)).
    rewrite to_guint_small by (unfold is_guint, G_MAXUINT; lia).
    split; [apply crc32bit_table_bit_step; assumption|].
    split; [lia|]. split; [lia|].
    replace (Z.to_nat (j + 1)) with (Datatypes.S (Z.to_nat j)) by lia.
    reflexivity.
  - unfold fuel_upto. lia.
  - split; [lia|reflexivity].
  - apply Z.ltb_ge in Hexit. replace j' with 8 in Hrun by lia. exact Hrun.
Qed.

Lemma crc32bit_table_entry_run (P i : Z) (videocrc : GstVideocrc) :
  is_guint P ->
  crc32bit_table_entry P i videocrc
  = Done (tt, set_crc32bit_table
                (<[Z.to_nat i := crc_remainder P i]> (crc32bit_table videocrc))
                videocrc).
Proof.
  intros HP. unfold crc32bit_table_entry.
  rewrite crc32bit_table_bits by assumption. reflexivity.
Qed.

Lemma table_upto_store (P i : Z) (old : list Z) :
  length old = 256%nat -> 0 <= i < 256 ->
  <[Z.to_nat i := crc_remainder P i]> (table_upto P i old)
  = table_upto P (i + 1) old.
Proof.
  intros Hlen Hi. unfold table_upto.
  destruct (lookup_lt_is_Some_2 old (Z.to_nat i)) as [x Hx]; [lia|].
  rewrite insert_app_r_alt by (rewrite length_map, zrange_length; lia).
  rewrite length_map, zrange_length, Nat.sub_diag.
  rewrite (drop_S old x (Z.to_nat i) Hx). simpl.
  rewrite zrange_succ, map_app by lia. simpl.
  rewrite <- app_assoc. simpl.
  replace (Z.to_nat (i + 1)) with (Datatypes.S (Z.to_nat i)) by lia.
  reflexivity.
Qed.

Lemma init_crc32bit_table_run (videocrc : GstVideocrc) :
  length (crc32bit_table videocrc) = 256%nat ->
  gst_videocrc_init_crc32bit_table videocrc
  = Done (tt, set_crc32bit_table
                (map (crc_remainder (to_guint (crc_mask videocrc))) (zrange 256))
                videocrc).
Proof.
  intros Hlen. unfold gst_videocrc_init_crc32bit_table.
  set (P := to_guint (crc_mask videocrc)).
  assert (HP : is_guint P) by apply to_guint_range.
  set (old := crc32bit_table videocrc).
  destruct (for_loop_inv
              (fun i v => 0 <= i <= 256 /\
                          v = set_crc32bit_table (table_upto P i old) videocrc)
              256 (fun i => i <? 256) (fun i => to_guint (i + 1))
              (crc32bit_table_entry P))
    with (fuel := fuel_upto 256) (i := 0) (s := videocrc)
    as (i' & v' & Hrun & Hexit & Hi & ->).
  - intros i v [Hi ->] Hc. apply Z.ltb_lt in Hc. split; [assumption|].
    eexists. split; [apply crc32bit_table_entry_run; assumption|].
    rewrite to_guint_small by (unfold is_guint, G_MAXUINT; lia).
    split; [lia|]. split; [lia|].
    simpl. rewrite table_upto_store by (assumption || lia). reflexivity.
  - unfold fuel_upto. lia.
  - split; [lia|]. unfold table_upto. rewrite zrange_nonpos by lia.
    simpl. rewrite drop_0. destruct videocrc; reflexivity.
  - apply Z.ltb_ge in Hexit. replace i' with 256 in Hrun by lia.
    rewrite Hrun. unfold table_upto.
    rewrite drop_ge by (subst old; lia). rewrite app_nil_r. reflexivity.
Qed.

(** C5: for every 32-bit polynomial the generator leaves a table of 256
    entries; entry [i] is the remainder obtained from [i << 24] by eight
    shift steps that fold the polynomial in when the top bit was set, in
    unsigned 32-bit arithmetic; the table is a function of the polynomial
    alone and nothing else in the instance changes. *)
Theorem table_generator_bitwise (videocrc : GstVideocrc) :
  is_guint (crc_mask videocrc) ->
  length (crc32bit_table videocrc) = 256%nat ->
  exists table,
    gst_videocrc_init_crc32bit_table videocrc
    = Done (tt, set_crc32bit_table table videocrc) /\
    table = map (crc_remainder (crc_mask videocrc)) (zrange 256) /\
    length table = 256%nat /\
    forall i, 0 <= i < 256 ->
      table !! Z.to_nat i = Some (crc_remainder (crc_mask videocrc) i) /\
      is_guint (crc_remainder (crc_mask videocrc) i).
Proof.
  intros HP Hlen. eexists. split; [apply init_crc32bit_table_run; assumption|].
  rewrite (to_guint_small _ HP).
  split; [reflexivity|].
  split; [rewrite length_map, zrange_length; reflexivity|].
  intros i Hi. split.
  - rewrite list_lookup_fmap, zrange_lookup by assumption. reflexivity.
  - unfold crc_remainder. simpl Nat.iter.
    unfold crc_bit_step at 1.
    destruct (Z.testbit _ 31); apply to_guint_range.
Qed.

(** ** Loads and table updates *)

Lemma load_inside (region : list Z) (off : Z) (l : locals) :
  0 <= off < Z.of_nat (length region) ->
  load (Mapped region) off l = Done (peek region off, log_deref off l).
Proof.
  intros Hoff. unfold load, peek.
  destruct (Z.ltb_spec off 0) as [|_]; [lia|].
  destruct (lookup_lt_is_Some_2 region (Z.to_nat off)) as [b Hb]; [lia|].
  rewrite Hb, (list_lookup_total_correct _ _ _ Hb). reflexivity.
Qed.

Lemma load_fault_outside (buf_ptr : mapping) (off addr : Z) (l : locals) :
  load buf_ptr off l = SegFault addr ->
  addr = off /\ ~ 0 <= off < mapped_size buf_ptr.
Proof.
  unfold load, mapped_size. destruct buf_ptr as [|region].
  - intros [= <-]. split; [reflexivity|lia].
  - destruct (Z.ltb_spec off 0) as [Hneg|Hpos].
    + intros [= <-]. split; [reflexivity|lia].
    + destruct (region !! Z.to_nat off) eqn:Hlook; [discriminate|].
      intros [= <-]. split; [reflexivity|].
      apply lookup_ge_None_1 in Hlook. lia.
Qed.

Lemma consume_nil (T region : list Z) (l : locals) : consume T region [] l = l.
Proof. destruct l. unfold consume. simpl. rewrite app_nil_r. reflexivity. Qed.

Lemma consume_app (T region a b : list Z) (l : locals) :
  consume T region (a ++ b) l = consume T region b (consume T region a l).
Proof.
  unfold consume, crc_fold. simpl.
  rewrite map_app, fold_left_app, app_assoc. reflexivity.
Qed.

Lemma consume_set_k (T region offs : list Z) (v : Z) (l : locals) :
  consume T region offs (set_k v l) = set_k v (consume T region offs l).
Proof. reflexivity. Qed.

(** One sample: the load and the table update. *)
Lemma sample_run (T region : list Z) (off : Z) (l : locals) :
  0 <= off < Z.of_nat (length region) ->
  (pix <- load (Mapped region) off ;; crc_update T pix)%cmd l
  = Done (tt, consume T region [off] l).
Proof.
  intros Hoff. rewrite (bind_done _ _ _ _ _ (load_inside region off l Hoff)).
  reflexivity.
Qed.

(** ** Addresses of the padded planes *)

Section Addresses.
Variables width height stride_w stride_h n : Z.
Hypothesis Hfit : planes_fit width height stride_w stride_h n.

Lemma fit_quot : 0 <= Z.quot height 2 <= height.
Proof.
  destruct Hfit as (_ & Hh & _).
  rewrite Z.quot_div_nonneg by lia.
  split; [apply Z.div_pos; lia|].
  apply Z.div_le_upper_bound; lia.
Qed.

Lemma fit_shiftr : 0 <= 2 * Z.shiftr width 1 <= width.
Proof.
  destruct Hfit as (Hw & _).
  rewrite Z.shiftr_div_pow2 by lia. change (2 ^ 1) with 2.
  pose proof (Z.div_mod width 2 ltac:(lia)).
  pose proof (Z.mod_pos_bound width 2 ltac:(lia)). lia.
Qed.

Lemma fit_luma_bound (i : Z) :
  0 <= i < height -> 0 <= i * stride_w /\ (i + 1) * stride_w <= n.
Proof.
  destruct Hfit as (Hw & Hh & Hsw & Hsh & Hn). intros Hi.
  pose proof fit_quot as Hq.
  assert (0 <= stride_w) by lia.
  split; [apply Z.mul_nonneg_nonneg; lia|].
  assert ((i + 1) * stride_w <= stride_h * stride_w)
    by (apply Z.mul_le_mono_nonneg_r; lia).
  assert (0 <= stride_w * Z.quot height 2)
    by (apply Z.mul_nonneg_nonneg; lia).
  lia.
Qed.

Lemma luma_address (i c : Z) :
  0 <= i < height -> 0 <= c < 2 * Z.shiftr width 1 ->
  gint_add (gint_mul i stride_w) c = i * stride_w + c /\
  0 <= i * stride_w + c < n.
Proof.
  intros Hi Hc. pose proof (fit_luma_bound i Hi) as [Hlo Hhi].
  pose proof fit_shiftr as Hs.
  destruct Hfit as (Hw & Hh & Hsw & Hsh & Hn).
  assert (c < stride_w) by lia.
  unfold G_MAXINT in *.
  rewrite gint_mul_small by (unfold is_gint, G_MININT, G_MAXINT; lia).
  rewrite gint_add_small by (unfold is_gint, G_MININT, G_MAXINT; lia).
  split; [reflexivity|lia].
Qed.

Lemma fit_chroma_bound (i : Z) :
  0 <= i < Z.quot height 2 ->
  0 <= stride_w * stride_h /\ 0 <= i * stride_w /\
  stride_w * stride_h + (i + 1) * stride_w <= n.
Proof.
  intros Hi. pose proof fit_quot as Hq.
  destruct Hfit as (Hw & Hh & Hsw & Hsh & Hn).
  assert (0 <= stride_w) by lia.
  split; [apply Z.mul_nonneg_nonneg; lia|].
  split; [apply Z.mul_nonneg_nonneg; lia|].
  assert ((i + 1) * stride_w <= Z.quot height 2 * stride_w)
    by (apply Z.mul_le_mono_nonneg_r; lia).
  lia.
Qed.

Lemma chroma_address (i j : Z) :
  0 <= i < Z.quot height 2 -> 0 <= j < width -> Z.even j = true ->
  let base := gint_add (gint_mul stride_w stride_h) (gint_mul i stride_w) in
  gint_add base j = stride_w * stride_h + i * stride_w + j /\
  gint_add (gint_add base j) 1 = stride_w * stride_h + i * stride_w + j + 1 /\
  0 <= stride_w * stride_h + i * stride_w + j /\
  stride_w * stride_h + i * stride_w + j + 1 < n.
Proof.
  intros Hi Hj Hev. pose proof (fit_chroma_bound i Hi) as (Hb & Hlo & Hhi).
  destruct Hfit as (Hw & Hh & Hsw & Hsh & Hn).
  apply Z.even_spec in Hev. destruct Hev as [q ->].
  assert (2 * q + 1 < stride_w) by lia.
  cbv zeta. unfold G_MAXINT in *.
  rewrite (gint_mul_small stride_w stride_h), (gint_mul_small i stride_w)
    by (unfold is_gint, G_MININT, G_MAXINT; lia).
  rewrite (gint_add_small (stride_w * stride_h))
    by (unfold is_gint, G_MININT, G_MAXINT; lia).
  rewrite (gint_add_small _ (2 * q))
    by (unfold is_gint, G_MININT, G_MAXINT; lia).
  rewrite (gint_add_small _ 1)
    by (unfold is_gint, G_MININT, G_MAXINT; lia).
  repeat split; lia.
Qed.
End Addresses.

(** ** The three plane loops on a region that holds the planes *)

Section PlaneRuns.
Variables CRC32Table region : list Z.
Variables width height stride_w stride_h : Z.
Hypothesis Hfit :
  planes_fit width height stride_w stride_h (Z.of_nat (length region)).

Lemma luma_pair_run (i j : Z) (l : locals) :
  0 <= i < height -> 0 <= j < Z.shiftr width 1 -> k l = 2 * j ->
  luma_pair (Mapped region) CRC32Table stride_w i j l
  = Done (tt, set_k (2 * j + 2)
                (consume CRC32Table region
                   [i * stride_w + 2 * j; i * stride_w + (2 * j + 1)] l)).
Proof.
  intros Hi Hj Hk. pose proof (fit_shiftr _ _ _ _ _ Hfit) as Hs.
  destruct (luma_address _ _ _ _ _ Hfit i (2 * j) Hi ltac:(lia)) as [Ha1 Hb1].
  destruct (luma_address _ _ _ _ _ Hfit i (2 * j + 1) Hi ltac:(lia)) as [Ha2 Hb2].
  destruct Hfit as (Hw & Hh & Hsw & Hsh & Hn). unfold G_MAXINT in *.
  assert (Hk1 : gint_add (2 * j) 1 = 2 * j + 1)
    by (apply gint_add_small; unfold is_gint, G_MININT, G_MAXINT; lia).
  assert (Hk2 : gint_add (2 * j + 1) 1 = 2 * j + 2)
    by (rewrite gint_add_small; unfold is_gint, G_MININT, G_MAXINT; lia).
  destruct l as [c kk tr]. simpl in Hk. subst kk.
  unfold luma_pair, bind, k_post_incr.
  cbn [k set_k CRC derefs].
  rewrite Ha1, (load_inside region _ _ Hb1).
  cbn [k set_k log_deref CRC derefs].
  rewrite Hk1, Ha2, (load_inside region _ _ Hb2).
  cbn [k set_k log_deref CRC derefs].
  rewrite Hk2.
  unfold crc_update, modify, consume, crc_fold, set_CRC, set_k, log_deref.
  cbn [k CRC derefs map fold_left].
  rewrite <- app_assoc. reflexivity.
Qed.

Lemma luma_row_run (i : Z) (l : locals) :
  0 <= i < height ->
  luma_row (Mapped region) CRC32Table width stride_w i l
  = Done (tt, set_k (2 * Z.shiftr width 1)
                (consume CRC32Table region
                   (map (fun c => i * stride_w + c) (zrange (2 * Z.shiftr width 1)))
                   l)).
Proof.
  intros Hi. pose proof (fit_shiftr _ _ _ _ _ Hfit) as Hs.
  assert (Hmax : Z.shiftr width 1 < G_MAXINT)
    by (destruct Hfit as (Hw & Hh & Hsw & Hsh & Hn); unfold G_MAXINT in *; lia).
  unfold luma_row.
  rewrite (bind_done _ _ l (set_k 0 l) tt) by reflexivity.
  destruct (for_loop_inv
              (fun j s => 0 <= j <= Z.shiftr width 1 /\
                 s = set_k (2 * j)
                       (consume CRC32Table region
                          (map (fun c => i * stride_w + c) (zrange (2 * j))) l))
              (Z.shiftr width 1) (fun j => j <? Z.shiftr width 1)
              (fun j => gint_add j 1) (luma_pair (Mapped region) CRC32Table stride_w i))
    with (fuel := fuel_upto (Z.shiftr width 1)) (i := 0) (s := set_k 0 l)
    as (j' & s' & Hrun & Hexit & Hj & ->).
  - intros j s [Hj ->] Hc. apply Z.ltb_lt in Hc. split; [assumption|].
    eexists. split; [apply luma_pair_run; [assumption|lia|reflexivity]|].
    rewrite gint_add_small by (unfold is_gint, G_MININT, G_MAXINT in *; lia).
    split; [lia|]. split; [lia|].
    replace (2 * (j + 1)) with (2 * j + 1 + 1) by lia.
    rewrite (zrange_succ (2 * j + 1)), (zrange_succ (2 * j)) by lia.
    rewrite <- app_assoc, map_app, consume_app. simpl map.
    destruct l; unfold consume, set_k; cbn [k CRC derefs].
    f_equal. lia.
  - unfold fuel_upto. lia.
  - split; [lia|]. rewrite zrange_nonpos by lia. simpl map.
    rewrite consume_nil. destruct l; reflexivity.
  - apply Z.ltb_ge in Hexit. replace j' with (Z.shiftr width 1) in Hrun by lia.
    exact Hrun.
Qed.

(** A loop over the even columns whose body consumes one sample. *)
Lemma even_loop_run (sample : Z -> M locals unit) (f : Z -> Z) (l : locals) :
  (forall j s, 0 <= j < width -> Z.even j = true ->
     sample j s = Done (tt, consume CRC32Table region [f j] s)) ->
  for_loop (fuel_upto width) (fun j => j <? width) (fun j => gint_add j 2)
    sample 0 l
  = Done (tt, consume CRC32Table region (map f (even_cols width)) l).
Proof.
  intros Hsample.
  assert (Hmax : 0 <= width /\ width < G_MAXINT).
  { destruct Hfit as (Hw & Hh & Hsw & Hsh & Hn). unfold G_MAXINT in *. lia. }
  destruct (for_loop_inv
              (fun j s => 0 <= j <= width + 1 /\ Z.even j = true /\
                 s = consume CRC32Table region (map f (even_cols j)) l)
              width (fun j => j <? width) (fun j => gint_add j 2) sample)
    with (fuel := fuel_upto width) (i := 0) (s := l)
    as (j' & s' & Hrun & Hexit & Hj & Hev & ->).
  - intros j s (Hj & Hev & ->) Hc. apply Z.ltb_lt in Hc. split; [assumption|].
    eexists. split; [apply Hsample; [lia|assumption]|].
    rewrite gint_add_small by (unfold is_gint, G_MININT, G_MAXINT in *; lia).
    split; [lia|]. split; [lia|].
    split; [rewrite Z.even_add, Hev; reflexivity|].
    rewrite even_cols_step, map_app, consume_app by (lia || assumption).
    reflexivity.
  - unfold fuel_upto. lia.
  - split; [lia|]. split; [reflexivity|].
    unfold even_cols. rewrite zrange_nonpos by lia. simpl.
    rewrite consume_nil. reflexivity.
  - apply Z.ltb_ge in Hexit. rewrite Hrun.
    replace (even_cols j') with (even_cols width); [reflexivity|].
    destruct (Z.eq_dec j' width) as [->|Hne]; [reflexivity|].
    replace j' with (width + 1) in * by lia.
    symmetry. apply even_cols_odd_end; [lia|].
    rewrite Z.even_add in Hev. destruct (Z.even width); [discriminate|reflexivity].
Qed.

(** A loop over rows whose body consumes the row's samples. *)
Lemma rows_loop_run (rows : Z) (row : Z -> M locals unit) (g : Z -> list Z)
    (l : locals) :
  0 <= rows <= G_MAXINT ->
  (forall i s, 0 <= i < rows ->
     exists k', row i s = Done (tt, set_k k' (consume CRC32Table region (g i) s))) ->
  exists k',
    for_loop (fuel_upto rows) (fun i => i <? rows) (fun i => gint_add i 1) row 0 l
    = Done (tt, set_k k' (consume CRC32Table region (flat_map g (zrange rows)) l)).
Proof.
  intros Hrows Hrow.
  destruct (for_loop_inv
              (fun i s => 0 <= i <= rows /\
                 exists k', s = set_k k'
                   (consume CRC32Table region (flat_map g (zrange i)) l))
              rows (fun i => i <? rows) (fun i => gint_add i 1) row)
    with (fuel := fuel_upto rows) (i := 0) (s := l)
    as (i' & s' & Hrun & Hexit & Hi & k' & ->).
  - intros i s (Hi & k0 & ->) Hc. apply Z.ltb_lt in Hc. split; [assumption|].
    destruct (Hrow i (set_k k0
                (consume CRC32Table region (flat_map g (zrange i)) l))
                ltac:(lia)) as [k1 Hk1].
    eexists. split; [exact Hk1|].
    rewrite gint_add_small by (unfold is_gint, G_MININT, G_MAXINT in *; lia).
    split; [lia|]. split; [lia|]. exists k1.
    rewrite zrange_succ, flat_map_app, consume_app by lia.
    simpl flat_map. rewrite app_nil_r. reflexivity.
  - unfold fuel_upto. lia.
  - split; [lia|]. exists (k l). rewrite zrange_nonpos by lia. simpl.
    rewrite consume_nil. destruct l; reflexivity.
  - apply Z.ltb_ge in Hexit. exists k'. rewrite Hrun.
    replace i' with rows by lia. reflexivity.
Qed.

Lemma complement_after (m : M locals unit) (offs : list Z) (k' : Z) (l : locals) :
  m l = Done (tt, set_k k' (consume CRC32Table region offs l)) ->
  (m ;; crc_complement)%cmd l
  = Done (tt, plane_done CRC32Table region offs k' l).
Proof. intros Hm. rewrite (bind_done _ _ _ _ _ Hm). reflexivity. Qed.

Lemma luma_plane_run (l : locals) :
  exists k',
    luma_plane (Mapped region) CRC32Table width height stride_w l
    = Done (tt, plane_done CRC32Table region
                  (luma_pair_offsets width height stride_w) k' l).
Proof.
  destruct (rows_loop_run height
              (luma_row (Mapped region) CRC32Table width stride_w)
              (fun r => map (fun c => r * stride_w + c)
                          (zrange (2 * Z.shiftr width 1))) l)
    as [k' Hk'].
  - destruct Hfit as (Hw & Hh & Hsw & Hsh & Hn). lia.
  - intros i s Hi. eexists. apply luma_row_run. assumption.
  - exists k'. apply complement_after. exact Hk'.
Qed.

Lemma chroma_u_row_run (i : Z) (l : locals) :
  0 <= i < Z.quot height 2 ->
  chroma_u_row (Mapped region) CRC32Table width stride_w stride_h i l
  = Done (tt, consume CRC32Table region
                (map (fun j => stride_w * stride_h + i * stride_w + j + 0)
                   (even_cols width)) l).
Proof.
  intros Hi. apply even_loop_run. intros j s Hj Hev.
  destruct (chroma_address _ _ _ _ _ Hfit i j Hi Hj Hev) as (Ha & _ & Hlo & Hhi).
  unfold chroma_u_sample. rewrite Ha, Z.add_0_r.
  apply sample_run. lia.
Qed.

Lemma chroma_v_row_run (i : Z) (l : locals) :
  0 <= i < Z.quot height 2 ->
  chroma_v_row (Mapped region) CRC32Table width stride_w stride_h i l
  = Done (tt, consume CRC32Table region
                (map (fun j => stride_w * stride_h + i * stride_w + j + 1)
                   (even_cols width)) l).
Proof.
  intros Hi. apply even_loop_run. intros j s Hj Hev.
  destruct (chroma_address _ _ _ _ _ Hfit i j Hi Hj Hev) as (_ & Ha & Hlo & Hhi).
  unfold chroma_v_sample. rewrite Ha.
  apply sample_run. lia.
Qed.

Lemma set_k_consume (offs : list Z) (l : locals) :
  set_k (k l) (consume CRC32Table region offs l)
  = consume CRC32Table region offs l.
Proof. reflexivity. Qed.

Lemma chroma_u_plane_run (l : locals) :
  exists k',
    chroma_u_plane (Mapped region) CRC32Table width height stride_w stride_h l
    = Done (tt, plane_done CRC32Table region
                  (chroma_offsets (stride_w * stride_h) 0 width height stride_w)
                  k' l).
Proof.
  pose proof (fit_quot _ _ _ _ _ Hfit) as Hq.
  destruct (rows_loop_run (Z.quot height 2)
              (chroma_u_row (Mapped region) CRC32Table width stride_w stride_h)
              (fun i => map (fun j => stride_w * stride_h + i * stride_w + j + 0)
                          (even_cols width)) l)
    as [k' Hk'].
  - destruct Hfit as (Hw & Hh & Hsw & Hsh & Hn). lia.
  - intros i s Hi. exists (k s). rewrite set_k_consume.
    apply chroma_u_row_run. assumption.
  - exists k'. apply complement_after. exact Hk'.
Qed.

Lemma chroma_v_plane_run (l : locals) :
  exists k',
    chroma_v_plane (Mapped region) CRC32Table width height stride_w stride_h l
    = Done (tt, plane_done CRC32Table region
                  (chroma_offsets (stride_w * stride_h) 1 width height stride_w)
                  k' l).
Proof.
  pose proof (fit_quot _ _ _ _ _ Hfit) as Hq.
  destruct (rows_loop_run (Z.quot height 2)
              (chroma_v_row (Mapped region) CRC32Table width stride_w stride_h)
              (fun i => map (fun j => stride_w * stride_h + i * stride_w + j + 1)
                          (even_cols width)) l)
    as [k' Hk'].
  - destruct Hfit as (Hw & Hh & Hsw & Hsh & Hn). lia.
  - intros i s Hi. exists (k s). rewrite set_k_consume.
    apply chroma_v_row_run. assumption.
  - exists k'. apply complement_after. exact Hk'.
Qed.

(** The whole planar branch: three planes, each folded into the checksum
    the one before left, each followed by a complement. *)
Lemma planar_crc_run (l : locals) :
  let Y := luma_pair_offsets width height stride_w in
  let Cb := chroma_offsets (stride_w * stride_h) 0 width height stride_w in
  let Cr := chroma_offsets (stride_w * stride_h) 1 width height stride_w in
  exists k0 k1 k2,
    planar_crc (Mapped region) CRC32Table width height stride_w stride_h l
    = Done (tt, plane_done CRC32Table region Cr k2
                  (plane_done CRC32Table region Cb k1
                     (plane_done CRC32Table region Y k0 l))).
Proof.
  intros Y Cb Cr.
  destruct (luma_plane_run l) as [k0 H0].
  destruct (chroma_u_plane_run (plane_done CRC32Table region Y k0 l)) as [k1 H1].
  destruct (chroma_v_plane_run
              (plane_done CRC32Table region Cb k1
                 (plane_done CRC32Table region Y k0 l))) as [k2 H2].
  exists k0, k1, k2. unfold planar_crc.
  rewrite (bind_done _ _ _ _ _ H0), (bind_done _ _ _ _ _ H1). exact H2.
Qed.
End PlaneRuns.

(** ** The per-byte update of the two paths *)

Lemma crc_step_range (T : list Z) (c pix : Z) :
  is_guint (crc_step_planar T c pix) /\ is_guint (crc_step_linear T c pix).
Proof.
  unfold crc_step_planar, crc_step_linear, guint_shl, table_at.
  assert (Hr : forall a b, is_guint (Z.lxor (to_guint a) (to_guint b))).
  { intros a b. pose proof (to_guint_range a) as Ha.
    pose proof (to_guint_range b) as Hb.
    unfold is_guint, G_MAXUINT in *.
    pose proof (lxor_below_pow2 32 (to_guint a) (to_guint b)). lia. }
  split; apply Hr.
Qed.

(** C10: for every 32-bit checksum value and every byte, the index the
    linear path uses without a mask, [(CRC >> 24) ^ byte], is below 256: the
    lookup stays inside the table, the index is the masked index of the
    planar path, and the two paths apply the same update. *)
Theorem linear_index_within_table (CRC32Table : list Z) (c byte : Z) :
  is_guint c -> is_guint8 byte ->
  0 <= crc_pos_linear c byte < 256 /\
  crc_pos_linear c byte = crc_pos_planar c byte /\
  crc_step_linear CRC32Table c byte = crc_step_planar CRC32Table c byte.
Proof.
  intros Hc Hb. pose proof (shiftr_24_byte c Hc) as Hs.
  assert (Hidx : 0 <= crc_pos_linear c byte < 256).
  { unfold crc_pos_linear, is_guint8 in *.
    change 256 with (2 ^ 8). apply lxor_below_pow2; lia. }
  assert (Heq : crc_pos_linear c byte = crc_pos_planar c byte).
  { unfold crc_pos_planar. change 0xFF with (Z.ones 8).
    rewrite Z.land_ones by lia.
    rewrite (to_guint_small (Z.shiftr c 24))
      by (unfold is_guint, G_MAXUINT; lia).
    fold (crc_pos_linear c byte). rewrite Z.mod_small; [reflexivity|lia]. }
  split; [exact Hidx|]. split; [exact Heq|].
  unfold crc_step_linear, crc_step_planar. rewrite Heq. reflexivity.
Qed.

Lemma linear_index_within_table_witness :
  0 <= crc_pos_linear 0xDEADBEEF 0x41 < 256 /\
  crc_pos_linear 0xDEADBEEF 0x41 = crc_pos_planar 0xDEADBEEF 0x41 /\
  crc_step_linear (crc32bit_table new_instance) 0xDEADBEEF 0x41
  = crc_step_planar (crc32bit_table new_instance) 0xDEADBEEF 0x41.
Proof.
  apply (linear_index_within_table (crc32bit_table new_instance) 0xDEADBEEF 0x41).
  - unfold is_guint, G_MAXUINT. lia.
  - unfold is_guint8. lia.
Defined.

(** ** The two properties *)

(** C7: a change of the location in a state other than NULL or READY is
    refused: the function returns FALSE and the instance, its stored name
    included, is as before.  In NULL and READY it returns TRUE and the new
    name, or none for NULL, replaces the old one; nothing else changes. *)
Theorem set_location_state_gate (location : option string) (videocrc : GstVideocrc) :
  let r := gst_videocrc_set_location location videocrc in
  (location_change_allowed (gst_state videocrc) = false ->
     fst r = false /\ snd r = videocrc /\
     filename (snd r) = filename videocrc) /\
  (location_change_allowed (gst_state videocrc) = true ->
     fst r = true /\ filename (snd r) = location /\
     snd r = set_filename location videocrc).
Proof.
  unfold gst_videocrc_set_location.
  destruct (gst_state videocrc) eqn:Hst; simpl; split; intros Hallowed;
    try discriminate; try (repeat split; reflexivity);
    destruct location; repeat split; reflexivity.
Qed.

Lemma set_location_state_gate_witness :
  (fst (gst_videocrc_set_location (Some "b.log"%string) playing_instance) = false /\
   snd (gst_videocrc_set_location (Some "b.log"%string) playing_instance)
   = playing_instance /\
   filename (snd (gst_videocrc_set_location (Some "b.log"%string) playing_instance))
   = filename playing_instance) /\
  (fst (gst_videocrc_set_location None ready_instance) = true /\
   filename (snd (gst_videocrc_set_location None ready_instance)) = None /\
   snd (gst_videocrc_set_location None ready_instance)
   = set_filename None ready_instance).
Proof.
  split.
  - apply (proj1 (set_location_state_gate (Some "b.log"%string) playing_instance)).
    reflexivity.
  - apply (proj2 (set_location_state_gate None ready_instance)).
    reflexivity.
Defined.

Lemma set_property_keeps_table (prop_id : Z) (value : GValue)
    (videocrc : GstVideocrc) :
  crc32bit_table (gst_videocrc_set_property prop_id value videocrc)
  = crc32bit_table videocrc.
Proof.
  unfold gst_videocrc_set_property.
  destruct (prop_id =? PROP_LOCATION).
  - unfold gst_videocrc_set_location.
    destruct (gst_state videocrc), (g_value_get_string value); reflexivity.
  - destruct (prop_id =? PROP_CRC_MASK); reflexivity.
Qed.

Lemma new_instance_init :
  gst_videocrc_init zeroed_instance = Done (tt, new_instance).
Proof. vm_compute. reflexivity. Qed.

Lemma new_instance_table :
  crc32bit_table new_instance
  = map (crc_remainder GST_VIDEO_DEFAULT_CRC_MASK) (zrange 256).
Proof. vm_compute. reflexivity. Qed.

(** C8: a write to the crc-mask property stores the value in the mask and
    leaves the table and every other field as they were; no write to any
    property changes the table, and the table of a constructed instance
    stays the one of the default polynomial. *)
Theorem mask_write_keeps_table (value : GValue) (videocrc : GstVideocrc) :
  let videocrc' := gst_videocrc_set_property PROP_CRC_MASK value videocrc in
  crc32bit_table videocrc' = crc32bit_table videocrc /\
  crc_mask videocrc' = g_value_get_uint value /\
  videocrc' = set_crc_mask (g_value_get_uint value) videocrc /\
  set_crc_mask (crc_mask videocrc) videocrc' = videocrc /\
  (forall prop_id v,
     crc32bit_table (gst_videocrc_set_property prop_id v videocrc)
     = crc32bit_table videocrc) /\
  crc32bit_table
    (gst_videocrc_set_property PROP_CRC_MASK value new_instance)
  = map (crc_remainder GST_VIDEO_DEFAULT_CRC_MASK) (zrange 256).
Proof.
  cbv zeta. split; [apply set_property_keeps_table|].
  split; [reflexivity|]. split; [reflexivity|].
  split; [destruct videocrc; reflexivity|].
  split; [intros prop_id v; apply set_property_keeps_table|].
  rewrite set_property_keeps_table. apply new_instance_table.
Qed.

(** ** The frame function *)

Lemma frame_record_fields (c : Z) (videocrc : GstVideocrc) :
  let r := frame_record c videocrc in
  fst (fst r) = GST_FLOW_OK /\
  snd (fst r) = CrcLine (gint_add (frame_num videocrc) 1) c /\
  frame_num (snd r) = gint_add (frame_num videocrc) 1 /\
  crc (snd r) = c /\
  crc32bit_table (snd r) = crc32bit_table videocrc /\
  width (snd r) = width videocrc /\ height (snd r) = height videocrc /\
  stride_w (snd r) = stride_w videocrc /\ stride_h (snd r) = stride_h videocrc.
Proof.
  unfold frame_record. cbv zeta.
  destruct videocrc as [st fn [lines|] m n c0 T w h sw sh off sz];
    simpl; repeat split; reflexivity.
Qed.

(** The function never returns a flow value other than GST_FLOW_OK. *)
Lemma transform_flow_always_ok (buf : GstBuffer) (videocrc videocrc' : GstVideocrc)
    (flow : GstFlowReturn) (line : crc_line) :
  gst_videocrc_transform_frame_ip buf videocrc = Done ((flow, line), videocrc') ->
  flow = GST_FLOW_OK.
Proof.
  unfold gst_videocrc_transform_frame_ip.
  destruct (frame_crc buf (set_crc 0 videocrc)) as [[u l]| |]; try discriminate.
  intros [= Hflow _ _]. symmetry. exact Hflow.
Qed.

Lemma linear_crc_run (T data : list Z) (l : locals) :
  Z.of_nat (length data) <= G_MAXINT ->
  exists l', linear_crc T data l = Done (tt, l').
Proof.
  intros Hlen. unfold linear_crc, G_MAXINT in *.
  set (n := Z.of_nat (length data)) in *.
  destruct (for_loop_inv (fun i (s : locals) => 0 <= i <= n) n
              (fun i => i mod 2 ^ 64 <? n) (fun i => gint_add i 1)
              (linear_byte T data))
    with (fuel := fuel_upto n) (i := 0) (s := l)
    as (i' & s' & Hrun & _ & _).
  - intros i s Hi Hc. apply Z.ltb_lt in Hc.
    rewrite Z.mod_small in Hc by lia. split; [assumption|].
    unfold linear_byte.
    rewrite (bind_done _ _ _ _ _ (load_inside data i s ltac:(lia))).
    eexists. split; [reflexivity|].
    rewrite gint_add_small by (unfold is_gint, G_MININT, G_MAXINT; lia). lia.
  - unfold fuel_upto. lia.
  - lia.
  - eexists. rewrite (bind_done _ _ _ _ _ Hrun). reflexivity.
Qed.

Lemma frame_crc_planar (buf : GstBuffer) (videocrc : GstVideocrc)
    (ion_meta : GstIonBufFdMeta) :
  ionfd_meta buf = Some ion_meta ->
  frame_crc buf videocrc = planar_run videocrc (frame_mapping buf ion_meta).
Proof. unfold frame_crc. intros ->. reflexivity. Qed.

Lemma frame_crc_done (buf : GstBuffer) (videocrc : GstVideocrc) :
  frame_ok videocrc buf -> exists l, frame_crc buf videocrc = Done (tt, l).
Proof.
  unfold frame_ok. destruct (ionfd_meta buf) as [ion_meta|] eqn:Hmeta.
  - intros (region & Hmap & Hfit).
    rewrite (frame_crc_planar _ _ _ Hmeta), Hmap. unfold planar_run.
    destruct (planar_crc_run (crc32bit_table videocrc) region _ _ _ _ Hfit
                (MkLocals 0 0 [])) as (k0 & k1 & k2 & Hrun).
    eexists. exact Hrun.
  - intros Hlen. unfold frame_crc. rewrite Hmeta.
    apply linear_crc_run. assumption.
Qed.

Lemma transform_done (buf : GstBuffer) (videocrc : GstVideocrc) :
  frame_ok videocrc buf ->
  exists c,
    gst_videocrc_transform_frame_ip buf videocrc
    = Done (frame_record c (set_crc 0 videocrc)).
Proof.
  intros Hok. unfold gst_videocrc_transform_frame_ip.
  destruct (frame_crc_done buf (set_crc 0 videocrc)) as [l Hl]; [exact Hok|].
  rewrite Hl. exists (CRC l). reflexivity.
Qed.

(** C3: on a frame with ion metadata whose mapped region holds the padded
    planes, the checksum is a cascade of three stages in the order luma, Cb,
    Cr: the accumulator starts at 0 and is complemented once after the luma
    samples; the Cb samples continue from that complement and the result is
    complemented; the Cr samples continue from there and the result is
    complemented once more; this last value is stored as the checksum of the
    frame and printed in its line. *)
Theorem planar_checksum_cascade (buf : GstBuffer) (videocrc : GstVideocrc)
    (ion_meta : GstIonBufFdMeta) (region : list Z) :
  ionfd_meta buf = Some ion_meta ->
  frame_mapping buf ion_meta = Mapped region ->
  planes_fit (width videocrc) (height videocrc) (stride_w videocrc)
    (stride_h videocrc) (Z.of_nat (length region)) ->
  let T := crc32bit_table videocrc in
  let base := stride_w videocrc * stride_h videocrc in
  let Y := map (peek region)
             (luma_pair_offsets (width videocrc) (height videocrc) (stride_w videocrc)) in
  let Cb := map (peek region)
              (chroma_offsets base 0 (width videocrc) (height videocrc) (stride_w videocrc)) in
  let Cr := map (peek region)
              (chroma_offsets base 1 (width videocrc) (height videocrc) (stride_w videocrc)) in
  let after_luma := guint_not (crc_fold T 0 Y) in
  let after_cb := guint_not (crc_fold T after_luma Cb) in
  let after_cr := guint_not (crc_fold T after_cb Cr) in
  exists line videocrc',
    gst_videocrc_transform_frame_ip buf videocrc
    = Done ((GST_FLOW_OK, line), videocrc') /\
    line_crc line = after_cr /\ crc videocrc' = after_cr.
Proof.
  intros Hmeta Hmap Hfit T base Y Cb Cr after_luma after_cb after_cr.
  destruct (planar_crc_run T region _ _ _ _ Hfit (MkLocals 0 0 []))
    as (k0 & k1 & k2 & Hrun).
  unfold gst_videocrc_transform_frame_ip.
  rewrite (frame_crc_planar _ _ _ Hmeta), Hmap. unfold planar_run.
  change (crc32bit_table (set_crc 0 videocrc)) with T.
  change (width (set_crc 0 videocrc)) with (width videocrc).
  change (height (set_crc 0 videocrc)) with (height videocrc).
  change (stride_w (set_crc 0 videocrc)) with (stride_w videocrc).
  change (stride_h (set_crc 0 videocrc)) with (stride_h videocrc).
  rewrite Hrun.
  pose proof (frame_record_fields after_cr (set_crc 0 videocrc)) as Hf.
  cbv zeta in Hf. destruct Hf as (Hflow & Hline & _ & Hcrc & _).
  change (CRC (plane_done T region _ k2 _)) with after_cr.
  destruct (frame_record after_cr (set_crc 0 videocrc)) as [[flow line] v'].
  simpl in Hflow, Hline, Hcrc. subst flow.
  exists line, v'. split; [reflexivity|]. split; [|exact Hcrc].
  rewrite Hline. reflexivity.
Qed.

(** Frames one after the other, from a counter that stands at [a]. *)
Lemma process_frames_from (bufs : list GstBuffer) :
  forall (videocrc : GstVideocrc) (a : nat),
    frame_num videocrc = Z.of_nat a ->
    Z.of_nat (a + length bufs) <= G_MAXINT ->
    Forall (frame_ok videocrc) bufs ->
    exists lines videocrc',
      process_frames bufs videocrc = Done (lines, videocrc') /\
      map line_frame lines = map Z.of_nat (seq (Datatypes.S a) (length bufs)) /\
      frame_num videocrc' = Z.of_nat (a + length bufs).
Proof.
  induction bufs as [|buf rest IH]; intros videocrc a Hnum Hmax Hok.
  - exists [], videocrc. simpl. rewrite Nat.add_0_r.
    split; [reflexivity|]. split; [reflexivity|assumption].
  - inversion Hok as [|? ? Hbuf Hrest]; subst.
    destruct (transform_done buf videocrc Hbuf) as [c Hrun].
    pose proof (frame_record_fields c (set_crc 0 videocrc)) as Hf.
    cbv zeta in Hf.
    destruct (frame_record c (set_crc 0 videocrc)) as [[flow line] v1].
    simpl in Hf. destruct Hf as (_ & Hline & Hn1 & _ & _ & Hw & Hh & Hsw & Hsh).
    change (frame_num (set_crc 0 videocrc)) with (frame_num videocrc) in *.
    rewrite Hnum in *.
    simpl length in Hmax. unfold G_MAXINT in *.
    rewrite gint_add_small in *
      by (unfold is_gint, G_MININT, G_MAXINT; lia).
    destruct (IH v1 (Datatypes.S a)) as (lines & v2 & Hrest_run & Hlines & Hn2).
    + rewrite Hn1. lia.
    + lia.
    + eapply Forall_impl; [exact Hrest|].
      intros b. unfold frame_ok. rewrite Hw, Hh, Hsw, Hsh. tauto.
    + exists (line :: lines), v2. split.
      * simpl. rewrite (bind_done _ _ _ _ _ Hrun).
        rewrite (bind_done _ _ _ _ _ Hrest_run). reflexivity.
      * split.
        -- simpl. rewrite Hlines, Hline. simpl. f_equal. lia.
        -- rewrite Hn2. simpl length. f_equal. lia.
Qed.

(** C9: from an instance whose frame counter is zero, as reset leaves it,
    N frames processed one after the other give the lines numbered
    1, 2, ..., N in this order, and the counter stands at N: each frame
    increments the counter by one before its line is written. *)
Theorem frame_numbers_count_up (bufs : list GstBuffer) (videocrc : GstVideocrc) :
  frame_num videocrc = 0 ->
  Z.of_nat (length bufs) <= G_MAXINT ->
  Forall (frame_ok videocrc) bufs ->
  frame_num (gst_videocrc_reset videocrc) = 0 /\
  exists lines videocrc',
    process_frames bufs videocrc = Done (lines, videocrc') /\
    map line_frame lines = map Z.of_nat (seq 1 (length bufs)) /\
    frame_num videocrc' = Z.of_nat (length bufs).
Proof.
  intros Hzero Hmax Hok. split; [reflexivity|].
  apply (process_frames_from bufs videocrc 0%nat); assumption.
Qed.

(** ** Where the planes are read *)

Section Offsets.
Variables width height stride_w stride_h n : Z.
Hypothesis Hfit : planes_fit width height stride_w stride_h n.

Lemma luma_pair_offsets_inside :
  Forall (fun off => 0 <= off < n) (luma_pair_offsets width height stride_w).
Proof.
  apply List.Forall_forall. intros off Hin.
  unfold luma_pair_offsets, plane_offsets in Hin.
  apply List.in_flat_map in Hin. destruct Hin as (r & Hr & Hin).
  apply List.in_map_iff in Hin. destruct Hin as (c & <- & Hc).
  apply zrange_In in Hr. apply zrange_In in Hc.
  apply (luma_address _ _ _ _ _ Hfit r c Hr Hc).
Qed.

Lemma chroma_offsets_inside (d : Z) :
  0 <= d <= 1 ->
  Forall (fun off => 0 <= off < n)
    (chroma_offsets (stride_w * stride_h) d width height stride_w).
Proof.
  intros Hd. apply List.Forall_forall. intros off Hin.
  unfold chroma_offsets in Hin.
  apply List.in_flat_map in Hin. destruct Hin as (i & Hi & Hin).
  apply List.in_map_iff in Hin. destruct Hin as (j & <- & Hj).
  apply zrange_In in Hi. apply List.filter_In in Hj. destruct Hj as [Hj Hev].
  apply zrange_In in Hj.
  destruct (chroma_address _ _ _ _ _ Hfit i j Hi Hj Hev) as (_ & _ & Hlo & Hhi).
  lia.
Qed.

End Offsets.

Lemma luma_pair_offsets_even (width height stride_w : Z) :
  Z.even width = true ->
  luma_pair_offsets width height stride_w = luma_offsets width height stride_w.
Proof.
  intros Hev. unfold luma_pair_offsets, luma_offsets.
  apply Z.even_spec in Hev. destruct Hev as [q ->].
  rewrite Z.shiftr_div_pow2 by lia. change (2 ^ 1) with 2.
  replace (2 * q / 2) with q by lia. reflexivity.
Qed.

(** For an even width the pair loop covers every column of every row once,
    in order. *)
Lemma luma_covers_even_width (videocrc : GstVideocrc) (region : list Z) :
  planes_fit (width videocrc) (height videocrc) (stride_w videocrc)
    (stride_h videocrc) (Z.of_nat (length region)) ->
  Z.even (width videocrc) = true ->
  luma_reads
    (luma_offsets (width videocrc) (height videocrc) (stride_w videocrc))
    videocrc (Mapped region).
Proof.
  intros Hfit Hev. unfold luma_reads.
  destruct (luma_plane_run (crc32bit_table videocrc) region _ _ _ _ Hfit
              (MkLocals 0 0 [])) as [k' Hrun].
  eexists. split; [exact Hrun|].
  simpl. apply luma_pair_offsets_even. assumption.
Qed.

(** C4, at a frame 3 columns wide and 1 row high: the luma loop reads the
    offsets 0 and 1 and ends; offset 2, the third column of the row, is not
    read, so the loop does not cover every column of the row. *)
Theorem luma_odd_width_last_column_unread :
  let videocrc := negotiated (nv12_info 3 1) in
  let buf_ptr := Mapped (zero_region 6144) in
  (width videocrc, height videocrc, stride_w videocrc, stride_h videocrc)
  = (3, 1, 128, 32) /\
  luma_offsets (width videocrc) (height videocrc) (stride_w videocrc) = [0; 1; 2] /\
  luma_reads [0; 1] videocrc buf_ptr /\
  ~ luma_reads
      (luma_offsets (width videocrc) (height videocrc) (stride_w videocrc))
      videocrc buf_ptr.
Proof.
  cbv zeta. split; [vm_compute; reflexivity|].
  split; [vm_compute; reflexivity|].
  assert (Hrun : luma_plane (Mapped (zero_region 6144))
                   (crc32bit_table (negotiated (nv12_info 3 1))) 3 1 128
                   (MkLocals 0 0 [])
                 = Done (tt, MkLocals 4294967295 2 [0; 1]))
    by (vm_compute; reflexivity).
  split.
  - eexists. split; [exact Hrun|reflexivity].
  - intros (l' & Hl & Hd).
    change (width (negotiated (nv12_info 3 1))) with 3 in Hl, Hd.
    change (height (negotiated (nv12_info 3 1))) with 1 in Hl, Hd.
    change (stride_w (negotiated (nv12_info 3 1))) with 128 in Hl, Hd.
    rewrite Hrun in Hl. injection Hl as <-.
    vm_compute in Hd. discriminate Hd.
Qed.

(** ** The chroma base *)

(** C1, as amended: on a region that holds the padded planes, for every
    chroma row [i] in [0, height / 2) and every even column [j] in
    [0, width) the Cb sample is read at
    [stride_w * stride_h + i * stride_w + j] and the Cr sample one byte
    further: the chroma plane starts after [stride_h] padded luma rows. *)
Theorem chroma_read_after_padded_luma (videocrc : GstVideocrc) (region : list Z) :
  planes_fit (width videocrc) (height videocrc) (stride_w videocrc)
    (stride_h videocrc) (Z.of_nat (length region)) ->
  chroma_read_at (stride_w videocrc * stride_h videocrc) videocrc (Mapped region).
Proof.
  intros Hfit l.
  destruct (chroma_u_plane_run (crc32bit_table videocrc) region _ _ _ _ Hfit l)
    as [ku Hu].
  destruct (chroma_v_plane_run (crc32bit_table videocrc) region _ _ _ _ Hfit l)
    as [kv Hv].
  eexists. eexists.
  split; [exact Hu|]. split; [reflexivity|].
  split; [exact Hv|reflexivity].
Qed.

Lemma chroma_read_after_padded_luma_witness :
  chroma_read_at 4096 (negotiated (nv12_info 2 2)) (Mapped (zero_region 6144)).
Proof.
  apply (chroma_read_after_padded_luma (negotiated (nv12_info 2 2))
           (zero_region 6144)).
  planes_fit_by_computation.
Defined.

(** C1 as stated fails: after the negotiation of a 2x2 NV12 format, whose
    second plane starts at byte 8, the Cb sample of row 0, column 0 is read
    at 4096 and not at 8. *)
Lemma chroma_not_read_at_negotiated_offset :
  offset (negotiated (nv12_info 2 2)) = 8 /\
  ~ chroma_read_at (offset (negotiated (nv12_info 2 2)))
      (negotiated (nv12_info 2 2)) (Mapped (zero_region 6144)).
Proof.
  split; [vm_compute; reflexivity|].
  intros Hclaim.
  destruct (Hclaim (MkLocals 0 0 [])) as (l_u & l_v & Hu & Hdu & _).
  vm_compute in Hu. injection Hu as <-.
  vm_compute in Hdu. discriminate Hdu.
Qed.

(** ** Loads and the mapped size *)

(** C2, as amended: on a frame whose mapped region holds the padded planes
    (rows of [stride_w] bytes, [stride_h] luma rows and [height / 2] chroma
    rows, within gint) every offset the planar branch loads, luma and
    chroma, is below the size of the region.  The branch itself compares no
    offset with the size. *)
Theorem planar_loads_below_size (videocrc : GstVideocrc) (region : list Z) :
  planes_fit (width videocrc) (height videocrc) (stride_w videocrc)
    (stride_h videocrc) (mapped_size (Mapped region)) ->
  planar_loads_in_bounds videocrc (Mapped region).
Proof.
  intros Hfit. unfold planar_loads_in_bounds, planar_run.
  destruct (planar_crc_run (crc32bit_table videocrc) region _ _ _ _ Hfit
              (MkLocals 0 0 [])) as (k0 & k1 & k2 & Hrun).
  rewrite Hrun. simpl.
  repeat apply Forall_app_2.
  - apply (luma_pair_offsets_inside _ _ _ _ _ Hfit).
  - apply (chroma_offsets_inside _ _ _ _ _ Hfit). lia.
  - apply (chroma_offsets_inside _ _ _ _ _ Hfit). lia.
Qed.

Lemma planar_loads_below_size_witness :
  planar_loads_in_bounds (negotiated (nv12_info 2 2)) (Mapped (zero_region 6144)).
Proof.
  apply (planar_loads_below_size (negotiated (nv12_info 2 2)) (zero_region 6144)).
  planes_fit_by_computation.
Defined.

(** C2 as stated fails: with the 2x2 NV12 format negotiated and a mapped
    region of the 12 bytes that format announces, the luma loop of the
    second row loads offset 128. *)
Lemma planar_load_past_mapped_size :
  frame_mapping (ion_frame 12 (Some (zero_region 12))) (MkIonMeta 3 12 0)
  = Mapped (zero_region 12) /\
  planar_run (negotiated (nv12_info 2 2)) (Mapped (zero_region 12)) = SegFault 128 /\
  ~ planar_loads_in_bounds (negotiated (nv12_info 2 2)) (Mapped (zero_region 12)).
Proof.
  assert (Hrun : planar_run (negotiated (nv12_info 2 2)) (Mapped (zero_region 12))
                 = SegFault 128) by (vm_compute; reflexivity).
  split; [vm_compute; reflexivity|]. split; [exact Hrun|].
  unfold planar_loads_in_bounds. rewrite Hrun.
  change (mapped_size (Mapped (zero_region 12))) with 12.
  simpl. lia.
Qed.

(** ** A mapping that failed *)

(** At a 1x1 frame whose descriptor cannot be mapped: mmap returns
    MAP_FAILED, no load is made, and the function returns GST_FLOW_OK, with
    the frame counted and the line [VideoFrame 1 crc FFFFFFFF] written. *)
Theorem unmapped_frame_returns_ok :
  let videocrc := negotiated (nv12_info 1 1) in
  let buf := ion_frame 6144 None in
  frame_mapping buf (MkIonMeta 3 6144 0) = MAP_FAILED /\
  exists videocrc',
    gst_videocrc_transform_frame_ip buf videocrc
    = Done ((GST_FLOW_OK, CrcLine 1 0xFFFFFFFF), videocrc') /\
    frame_num videocrc' = 1 /\ crc videocrc' = 0xFFFFFFFF.
Proof.
  cbv zeta. split; [reflexivity|].
  eexists. split; [vm_compute; reflexivity|].
  split; reflexivity.
Qed.

(** On a larger frame the first load through MAP_FAILED faults instead. *)
Lemma unmapped_frame_faults :
  gst_videocrc_transform_frame_ip (ion_frame 6144 None)
    (negotiated (nv12_info 2 2))
  = SegFault 0.
Proof. vm_compute. reflexivity. Qed.

(** ** The statements at concrete frames *)

Lemma table_generator_bitwise_witness :
  exists table,
    gst_videocrc_init_crc32bit_table (gst_videocrc_reset zeroed_instance)
    = Done (tt, set_crc32bit_table table (gst_videocrc_reset zeroed_instance)) /\
    table !! 1%nat = Some GST_VIDEO_DEFAULT_CRC_MASK.
Proof.
  destruct (table_generator_bitwise (gst_videocrc_reset zeroed_instance))
    as (table & Hrun & Htable & Hlen & Hentry).
  - vm_compute. split; intros Hcmp; discriminate Hcmp.
  - reflexivity.
  - exists table. split; [exact Hrun|].
    destruct (Hentry 1 ltac:(lia)) as [Hone _].
    change (Z.to_nat 1) with 1%nat in Hone.
    rewrite Hone. vm_compute. reflexivity.
Defined.

Lemma planar_checksum_cascade_witness :
  exists line videocrc',
    gst_videocrc_transform_frame_ip (ion_frame 6144 (Some (zero_region 6144)))
      (negotiated (nv12_info 2 2))
    = Done ((GST_FLOW_OK, line), videocrc') /\
    line_crc line = crc videocrc'.
Proof.
  destruct (planar_checksum_cascade
              (ion_frame 6144 (Some (zero_region 6144)))
              (negotiated (nv12_info 2 2)) (MkIonMeta 3 6144 0) (zero_region 6144))
    as (line & videocrc' & Hrun & Hline & Hcrc).
  - reflexivity.
  - vm_compute. reflexivity.
  - planes_fit_by_computation.
  - exists line, videocrc'. split; [exact Hrun|].
    rewrite Hline, Hcrc. reflexivity.
Defined.

Lemma frame_numbers_count_up_witness :
  exists lines videocrc',
    process_frames
      [ion_frame 6144 (Some (zero_region 6144));
       MkBuffer None None [1; 2; 3];
       ion_frame 6144 (Some (zero_region 6144))]
      (negotiated (nv12_info 2 2))
    = Done (lines, videocrc') /\
    map line_frame lines = [1; 2; 3] /\ frame_num videocrc' = 3.
Proof.
  assert (Hion : frame_ok (negotiated (nv12_info 2 2))
                   (ion_frame 6144 (Some (zero_region 6144)))).
  { exists (zero_region 6144). split; [vm_compute; reflexivity|].
    planes_fit_by_computation. }
  apply (fun H0 Hmax Hok =>
           proj2 (frame_numbers_count_up
                    [ion_frame 6144 (Some (zero_region 6144));
                     MkBuffer None None [1; 2; 3];
                     ion_frame 6144 (Some (zero_region 6144))]
                    (negotiated (nv12_info 2 2)) H0 Hmax Hok)).
  - reflexivity.
  - vm_compute. intros Hcmp. discriminate Hcmp.
  - repeat constructor; try exact Hion.
    vm_compute. intros Hcmp. discriminate Hcmp.
Defined.

(** ** The geometry a negotiation leaves *)

Lemma ALIGN_round_up (num bits : Z) :
  0 <= bits -> is_gint (num + (2 ^ bits - 1)) ->
  ALIGN num (2 ^ bits) = 2 ^ bits * ((num + (2 ^ bits - 1)) / 2 ^ bits).
Proof.
  intros Hbits Hsum. unfold ALIGN.
  rewrite gint_add_small by assumption.
  replace (2 ^ bits - 1) with (Z.ones bits)
    by (rewrite Z.ones_equiv; lia).
  rewrite <- Z.ldiff_land, Z.ldiff_ones_r by assumption.
  rewrite Z.shiftl_mul_pow2, Z.shiftr_div_pow2 by assumption.
  apply Z.mul_comm.
Qed.

(** The padded stride holds the columns, rounded up to a pair, and the
    padded height holds the rows: a region as large as the padded planes
    fits. *)
Lemma set_info_planes_fit (in_info : GstVideoInfo) (videocrc0 : GstVideocrc)
    (n : Z) :
  0 <= info_width in_info <= G_MAXINT - 127 ->
  0 <= info_height in_info <= G_MAXINT - 31 ->
  let videocrc := snd (gst_videocrc_set_info in_info videocrc0) in
  stride_w videocrc * (stride_h videocrc + Z.quot (height videocrc) 2) <= n <= G_MAXINT ->
  planes_fit (width videocrc) (height videocrc) (stride_w videocrc)
    (stride_h videocrc) n.
Proof.
  intros Hw Hh. unfold G_MAXINT in *. cbv zeta. simpl.
  rewrite !to_gint_small by (unfold is_gint, G_MININT, G_MAXINT; lia).
  change ALIGN128 with (2 ^ 7). change ALIGN32 with (2 ^ 5).
  rewrite !ALIGN_round_up by (unfold is_gint, G_MININT, G_MAXINT; lia).
  change (2 ^ 7) with 128. change (2 ^ 5) with 32.
  intros Hn. unfold planes_fit, G_MAXINT.
  repeat split; try lia.
Qed.

(** The offset and the size stored at negotiation are not read by the frame
    function: two instances that differ in them only compute alike. *)
Lemma stored_offset_unused (buf : GstBuffer) (videocrc : GstVideocrc)
    (off sz : Z) :
  frame_crc buf
    (set_geometry (width videocrc) (height videocrc) (stride_w videocrc)
       (stride_h videocrc) off sz videocrc)
  = frame_crc buf videocrc.
Proof. reflexivity. Qed.

(** * Further properties *)

(** ** The linear branch *)

Lemma crc_step_same (T : list Z) (c byte : Z) :
  is_guint c -> is_guint8 byte ->
  crc_step_linear T c byte = crc_step_planar T c byte.
Proof.
  intros Hc Hb. pose proof (shiftr_24_byte c Hc) as Hs.
  unfold crc_step_linear, crc_step_planar. do 2 f_equal.
  unfold crc_pos_planar, crc_pos_linear. change 0xFF with (Z.ones 8).
  rewrite Z.land_ones by lia.
  rewrite (to_guint_small (Z.shiftr c 24)) by (unfold is_guint, G_MAXUINT; lia).
  unfold is_guint8 in Hb.
  pose proof (lxor_below_pow2 8 (Z.shiftr c 24) byte ltac:(lia) Hs ltac:(lia)).
  rewrite Z.mod_small; [reflexivity|lia].
Qed.

Lemma fold_linear_range (T bytes : list Z) (c : Z) :
  is_guint c -> is_guint (fold_left (crc_step_linear T) bytes c).
Proof.
  revert c. induction bytes as [|b bytes IH]; intros c Hc; simpl; [exact Hc|].
  apply IH. apply crc_step_range.
Qed.

Lemma fold_linear_planar (T bytes : list Z) (c : Z) :
  is_guint c ->
  fold_left (crc_step_linear T) (map to_guint8 bytes) c
  = crc_fold T c (map to_guint8 bytes).
Proof.
  unfold crc_fold. revert c.
  induction bytes as [|b bytes IH]; intros c Hc; simpl; [reflexivity|].
  rewrite crc_step_same by (assumption || apply to_guint8_range).
  apply IH. apply crc_step_range.
Qed.

Lemma linear_byte_run (T data : list Z) (i x : Z) (l : locals) :
  0 <= i -> data !! Z.to_nat i = Some x ->
  linear_byte T data i l
  = Done (tt, MkLocals (crc_step_linear T (CRC l) (to_guint8 x)) (k l)
                (derefs l ++ [i])).
Proof.
  intros Hi Hx. unfold linear_byte.
  assert (Hin : 0 <= i < Z.of_nat (length data)).
  { apply lookup_lt_Some in Hx. lia. }
  rewrite (bind_done _ _ _ _ _ (load_inside data i l Hin)).
  unfold peek. rewrite (list_lookup_total_correct _ _ _ Hx).
  reflexivity.
Qed.

Lemma linear_crc_exact (T data : list Z) (l : locals) :
  Z.of_nat (length data) <= G_MAXINT ->
  linear_crc T data l
  = Done (tt, MkLocals
                (guint_not (fold_left (crc_step_linear T) (map to_guint8 data) (CRC l)))
                (k l) (derefs l ++ zrange (Z.of_nat (length data)))).
Proof.
  intros Hlen. unfold linear_crc, G_MAXINT in *.
  set (n := Z.of_nat (length data)) in *.
  destruct (for_loop_inv
              (fun i s => 0 <= i <= n /\
                 s = MkLocals
                       (fold_left (crc_step_linear T)
                          (map to_guint8 (take (Z.to_nat i) data)) (CRC l))
                       (k l) (derefs l ++ zrange i))
              n (fun i => i mod 2 ^ 64 <? n) (fun i => gint_add i 1)
              (linear_byte T data))
    with (fuel := fuel_upto n) (i := 0) (s := l)
    as (i' & s' & Hrun & Hexit & Hi & ->).
  - intros i s [Hi ->] Hc. apply Z.ltb_lt in Hc.
    rewrite Z.mod_small in Hc by lia. split; [assumption|].
    destruct (lookup_lt_is_Some_2 data (Z.to_nat i)) as [x Hx]; [lia|].
    eexists. split; [apply (linear_byte_run T data i x); [lia|exact Hx]|].
    rewrite gint_add_small by (unfold is_gint, G_MININT, G_MAXINT; lia).
    split; [lia|]. split; [lia|].
    replace (Z.to_nat (i + 1)) with (Datatypes.S (Z.to_nat i)) by lia.
    rewrite (take_S_r _ _ _ Hx), map_app, fold_left_app, zrange_succ by lia.
    simpl. rewrite <- app_assoc. reflexivity.
  - unfold fuel_upto. lia.
  - split; [lia|]. rewrite zrange_nonpos by lia. simpl.
    rewrite app_nil_r. destruct l; reflexivity.
  - apply Z.ltb_ge in Hexit. rewrite Z.mod_small in Hexit by lia.
    rewrite (bind_done _ _ _ _ _ Hrun).
    replace i' with n by lia.
    rewrite take_ge by (subst n; lia). reflexivity.
Qed.

(** X1: on a buffer without ion metadata whose size a gint counter
    reaches, the function loads every byte of the mapped data once, in
    address order, and returns GST_FLOW_OK; the checksum it stores and prints
    is the complement of the table update folded over the bytes from 0, which
    is also what the masked update of the planar loops gives on the same
    bytes. *)
Theorem linear_single_pass (buf : GstBuffer) (videocrc : GstVideocrc) :
  ionfd_meta buf = None ->
  Z.of_nat (length (map_data buf)) <= G_MAXINT ->
  let T := crc32bit_table videocrc in
  (exists l,
     frame_crc buf videocrc = Done (tt, l) /\
     derefs l = zrange (Z.of_nat (length (map_data buf)))) /\
  exists line videocrc',
    gst_videocrc_transform_frame_ip buf videocrc
    = Done ((GST_FLOW_OK, line), videocrc') /\
    line_crc line = linear_checksum T (map_data buf) /\
    crc videocrc' = linear_checksum T (map_data buf) /\
    linear_checksum T (map_data buf)
    = guint_not (crc_fold T 0 (map to_guint8 (map_data buf))).
Proof.
  intros Hmeta Hlen T. split.
  - unfold frame_crc. rewrite Hmeta, linear_crc_exact by assumption.
    eexists. split; reflexivity.
  - unfold gst_videocrc_transform_frame_ip, frame_crc. rewrite Hmeta.
    rewrite linear_crc_exact by assumption.
    change (crc32bit_table (set_crc 0 videocrc)) with T.
    cbn [CRC].
    fold (linear_checksum T (map_data buf)).
    pose proof (frame_record_fields (linear_checksum T (map_data buf))
                  (set_crc 0 videocrc)) as Hf.
    cbv zeta in Hf. destruct Hf as (Hflow & Hline & _ & Hcrc & _).
    destruct (frame_record (linear_checksum T (map_data buf)) (set_crc 0 videocrc))
      as [[flow line] v'].
    simpl in Hflow, Hline, Hcrc. subst flow.
    exists line, v'. split; [reflexivity|].
    split; [rewrite Hline; reflexivity|]. split; [exact Hcrc|].
    unfold linear_checksum. f_equal. apply fold_linear_planar.
    unfold is_guint, G_MAXUINT. lia.
Qed.

Lemma linear_single_pass_witness :
  (exists l,
     frame_crc (MkBuffer None None [49; 50; 51]) new_instance = Done (tt, l) /\
     derefs l = zrange 3) /\
  exists line videocrc',
    gst_videocrc_transform_frame_ip (MkBuffer None None [49; 50; 51]) new_instance
    = Done ((GST_FLOW_OK, line), videocrc') /\
    line_crc line = linear_checksum (crc32bit_table new_instance) [49; 50; 51] /\
    crc videocrc' = linear_checksum (crc32bit_table new_instance) [49; 50; 51] /\
    linear_checksum (crc32bit_table new_instance) [49; 50; 51]
    = guint_not (crc_fold (crc32bit_table new_instance) 0
                   (map to_guint8 [49; 50; 51])).
Proof.
  apply (linear_single_pass (MkBuffer None None [49; 50; 51]) new_instance).
  - reflexivity.
  - vm_compute. intros Hcmp. discriminate Hcmp.
Defined.

(** X2: a buffer without ion metadata and without bytes is counted like
    any other frame and its checksum is 0xFFFFFFFF, the complement of the
    cleared accumulator, whatever the table holds. *)
Theorem empty_buffer_checksum (buf : GstBuffer) (videocrc : GstVideocrc) :
  ionfd_meta buf = None -> map_data buf = [] ->
  exists videocrc',
    gst_videocrc_transform_frame_ip buf videocrc
    = Done ((GST_FLOW_OK, CrcLine (gint_add (frame_num videocrc) 1) 0xFFFFFFFF),
            videocrc') /\
    crc videocrc' = 0xFFFFFFFF /\
    frame_num videocrc' = gint_add (frame_num videocrc) 1.
Proof.
  intros Hmeta Hdata.
  unfold gst_videocrc_transform_frame_ip, frame_crc.
  rewrite Hmeta, Hdata, linear_crc_exact
    by (vm_compute; intros Hcmp; discriminate Hcmp).
  pose proof (frame_record_fields 0xFFFFFFFF (set_crc 0 videocrc)) as Hf.
  cbv zeta in Hf. destruct Hf as (Hflow & Hline & Hnum & Hcrc & _).
  change (CRC (MkLocals (guint_not (fold_left _ (map to_guint8 []) (CRC (MkLocals 0 0 []))))
                 _ _)) with 0xFFFFFFFF.
  destruct (frame_record 0xFFFFFFFF (set_crc 0 videocrc)) as [[flow line] v'].
  simpl in Hflow, Hline, Hnum, Hcrc. subst flow line.
  exists v'. split; [reflexivity|]. split; assumption.
Qed.

Lemma empty_buffer_checksum_witness :
  exists videocrc',
    gst_videocrc_transform_frame_ip (MkBuffer None None []) new_instance
    = Done ((GST_FLOW_OK, CrcLine (gint_add (frame_num new_instance) 1) 0xFFFFFFFF),
            videocrc') /\
    crc videocrc' = 0xFFFFFFFF /\
    frame_num videocrc' = gint_add (frame_num new_instance) 1.
Proof.
  apply (empty_buffer_checksum (MkBuffer None None []) new_instance);
    reflexivity.
Defined.

Lemma fold_linear_zeros (T : list Z) (zeros : nat) :
  table_at T 0 = 0 ->
  fold_left (crc_step_linear T) (map to_guint8 (replicate zeros 0)) 0 = 0.
Proof.
  intros Hzero.
  assert (Hstep : crc_step_linear T 0 (to_guint8 0) = 0).
  { unfold crc_step_linear. change (crc_pos_linear 0 (to_guint8 0)) with 0.
    rewrite Hzero. reflexivity. }
  induction zeros as [|zeros IH]; [reflexivity|].
  cbn [replicate map fold_left]. rewrite Hstep. exact IH.
Qed.

(** X3: when entry 0 of the table is 0, as in every generated table, zero
    bytes at the head of a linear buffer leave the checksum as it is: the
    buffer with the zeros in front and the buffer without them get the same
    checksum, and a buffer of zeros only gets 0xFFFFFFFF like the empty
    one. *)
Theorem leading_zero_bytes_unseen (videocrc : GstVideocrc) (zeros : nat)
    (data : list Z) (memory memory' : option (list Z)) :
  table_at (crc32bit_table videocrc) 0 = 0 ->
  Z.of_nat (zeros + length data) <= G_MAXINT ->
  exists line line' videocrc1 videocrc2,
    gst_videocrc_transform_frame_ip
      (MkBuffer None memory (replicate zeros 0 ++ data)) videocrc
    = Done ((GST_FLOW_OK, line), videocrc1) /\
    gst_videocrc_transform_frame_ip (MkBuffer None memory' data) videocrc
    = Done ((GST_FLOW_OK, line'), videocrc2) /\
    line_crc line = line_crc line' /\
    (data = [] -> line_crc line = 0xFFFFFFFF).
Proof.
  intros Hzero Hlen.
  set (T := crc32bit_table videocrc).
  assert (Hsame : linear_checksum T (replicate zeros 0 ++ data)
                  = linear_checksum T data).
  { unfold linear_checksum.
    rewrite map_app, fold_left_app, fold_linear_zeros by exact Hzero.
    reflexivity. }
  unfold gst_videocrc_transform_frame_ip, frame_crc. simpl ionfd_meta.
  simpl map_data.
  rewrite !linear_crc_exact
    by (rewrite ?length_app, ?length_replicate; unfold G_MAXINT in *; lia).
  change (crc32bit_table (set_crc 0 videocrc)) with T.
  cbn [CRC].
  fold (linear_checksum T (replicate zeros 0 ++ data)).
  fold (linear_checksum T data).
  rewrite Hsame.
  pose proof (frame_record_fields (linear_checksum T data) (set_crc 0 videocrc))
    as Hf.
  cbv zeta in Hf. destruct Hf as (Hflow & Hline & _).
  destruct (frame_record (linear_checksum T data) (set_crc 0 videocrc))
    as [[flow line] v'].
  simpl in Hflow, Hline. subst flow.
  exists line, line, v', v'.
  split; [reflexivity|]. split; [reflexivity|]. split; [reflexivity|].
  intros ->. rewrite Hline. reflexivity.
Qed.

Lemma leading_zero_bytes_unseen_witness :
  exists line line' videocrc1 videocrc2,
    gst_videocrc_transform_frame_ip
      (MkBuffer None None (replicate 2 0 ++ [49; 50])) new_instance
    = Done ((GST_FLOW_OK, line), videocrc1) /\
    gst_videocrc_transform_frame_ip (MkBuffer None None [49; 50]) new_instance
    = Done ((GST_FLOW_OK, line'), videocrc2) /\
    line_crc line = line_crc line' /\
    ([49; 50] = [] -> line_crc line = 0xFFFFFFFF).
Proof.
  apply (leading_zero_bytes_unseen new_instance 2 [49; 50] None None).
  - reflexivity.
  - vm_compute. intros Hcmp. discriminate Hcmp.
Defined.

(** ** The generated table *)

Lemma crc_bit_step_lxor (P r1 r2 : Z) :
  crc_bit_step P (Z.lxor r1 r2)
  = Z.lxor (crc_bit_step P r1) (crc_bit_step P r2).
Proof.
  unfold crc_bit_step. rewrite Z.lxor_spec, Z.shiftl_lxor.
  destruct (Z.testbit r1 31), (Z.testbit r2 31); simpl xorb; cbv iota;
    rewrite <- to_guint_lxor; f_equal;
    apply Z.bits_inj'; intros m Hm; rewrite !Z.lxor_spec;
    destruct (Z.testbit (Z.shiftl r1 1) m), (Z.testbit (Z.shiftl r2 1) m),
      (Z.testbit P m); reflexivity.
Qed.

Lemma crc_remainder_lxor (P a b : Z) :
  crc_remainder P (Z.lxor a b)
  = Z.lxor (crc_remainder P a) (crc_remainder P b).
Proof.
  unfold crc_remainder. rewrite Z.shiftl_lxor, to_guint_lxor.
  generalize (to_guint (Z.shiftl a 24)) (to_guint (Z.shiftl b 24)).
  generalize 8%nat. intros n. induction n as [|n IH]; intros x y; [reflexivity|].
  simpl. rewrite IH. apply crc_bit_step_lxor.
Qed.

Lemma crc_remainder_zero (P : Z) : crc_remainder P 0 = 0.
Proof. reflexivity. Qed.

Lemma crc_remainder_one (P : Z) : crc_remainder P 1 = to_guint P.
Proof.
  change (crc_remainder P 1) with (crc_bit_step P (2 ^ 31)).
  unfold crc_bit_step. change (Z.testbit (2 ^ 31) 31) with true. cbv iota.
  rewrite to_guint_lxor. change (to_guint (Z.shiftl (2 ^ 31) 1)) with 0.
  apply Z.lxor_0_l.
Qed.

Lemma crc_remainder_range (P i : Z) : is_guint (crc_remainder P i).
Proof.
  unfold crc_remainder. simpl Nat.iter. unfold crc_bit_step at 1.
  destruct (Z.testbit _ 31); apply to_guint_range.
Qed.

Lemma generated_table_at (P i : Z) :
  0 <= i < 256 ->
  table_at (map (crc_remainder P) (zrange 256)) i = crc_remainder P i.
Proof.
  intros Hi. unfold table_at.
  assert (Hlook : map (crc_remainder P) (zrange 256) !! Z.to_nat i
                  = Some (crc_remainder P i))
    by (rewrite list_lookup_fmap, zrange_lookup by assumption; reflexivity).
  rewrite (list_lookup_total_correct _ _ _ Hlook).
  apply to_guint_small, crc_remainder_range.
Qed.

(** X4: the table the generator leaves is linear over exclusive-or: the
    entry of [a ^ b] is the exclusive-or of the entries of [a] and [b], for
    all byte values; entry 0 is 0 and entry 1 is the polynomial itself. *)
Theorem generated_table_xor_linear (videocrc : GstVideocrc) :
  length (crc32bit_table videocrc) = 256%nat ->
  exists videocrc',
    gst_videocrc_init_crc32bit_table videocrc = Done (tt, videocrc') /\
    let T := crc32bit_table videocrc' in
    table_at T 0 = 0 /\
    table_at T 1 = to_guint (crc_mask videocrc) /\
    forall a b, is_guint8 a -> is_guint8 b ->
      0 <= Z.lxor a b < 256 /\
      table_at T (Z.lxor a b) = Z.lxor (table_at T a) (table_at T b).
Proof.
  intros Hlen. eexists. split; [apply init_crc32bit_table_run; exact Hlen|].
  cbv zeta. unfold set_crc32bit_table. cbn [crc32bit_table].
  set (P := to_guint (crc_mask videocrc)).
  split; [rewrite generated_table_at by lia; apply crc_remainder_zero|].
  split.
  - rewrite generated_table_at by lia. rewrite crc_remainder_one.
    apply to_guint_small, to_guint_range.
  - intros a b Ha Hb. unfold is_guint8 in *.
    assert (Hab : 0 <= Z.lxor a b < 256)
      by (change 256 with (2 ^ 8); apply lxor_below_pow2; lia).
    split; [exact Hab|].
    rewrite !generated_table_at by lia. apply crc_remainder_lxor.
Qed.

Lemma generated_table_xor_linear_witness :
  exists videocrc',
    gst_videocrc_init_crc32bit_table (gst_videocrc_reset zeroed_instance)
    = Done (tt, videocrc') /\
    table_at (crc32bit_table videocrc') 0 = 0 /\
    table_at (crc32bit_table videocrc') (Z.lxor 0x35 0xA1)
    = Z.lxor (table_at (crc32bit_table videocrc') 0x35)
        (table_at (crc32bit_table videocrc') 0xA1).
Proof.
  destruct (generated_table_xor_linear (gst_videocrc_reset zeroed_instance))
    as (videocrc' & Hrun & Hzero & _ & Hxor).
  - reflexivity.
  - exists videocrc'. split; [exact Hrun|]. split; [exact Hzero|].
    apply (Hxor 0x35 0xA1); unfold is_guint8; lia.
Defined.

(** ** Negotiation *)

(** X5: for a width and a height that leave room for the rounding, the
    negotiation stores them as they are, a stride that is the least multiple
    of 128 not below the width and a padded height that is the least
    multiple of 32 not below the height; it returns TRUE, keeps the table,
    the mask, the counter and the log, and a later negotiation leaves
    nothing of an earlier one. *)
Theorem set_info_padded_geometry (in_info : GstVideoInfo) (videocrc0 : GstVideocrc) :
  0 <= info_width in_info <= G_MAXINT - 127 ->
  0 <= info_height in_info <= G_MAXINT - 31 ->
  let videocrc := snd (gst_videocrc_set_info in_info videocrc0) in
  fst (gst_videocrc_set_info in_info videocrc0) = true /\
  width videocrc = info_width in_info /\
  height videocrc = info_height in_info /\
  (width videocrc <= stride_w videocrc < width videocrc + 128 /\
   stride_w videocrc mod 128 = 0) /\
  (height videocrc <= stride_h videocrc < height videocrc + 32 /\
   stride_h videocrc mod 32 = 0) /\
  (crc32bit_table videocrc = crc32bit_table videocrc0 /\
   crc_mask videocrc = crc_mask videocrc0 /\
   frame_num videocrc = frame_num videocrc0 /\
   logfile videocrc = logfile videocrc0 /\
   filename videocrc = filename videocrc0) /\
  forall earlier,
    snd (gst_videocrc_set_info in_info
           (snd (gst_videocrc_set_info earlier videocrc0)))
    = videocrc.
Proof.
  intros Hw Hh. unfold G_MAXINT in *. cbv zeta. simpl.
  rewrite !to_gint_small by (unfold is_gint, G_MININT, G_MAXINT; lia).
  change ALIGN128 with (2 ^ 7). change ALIGN32 with (2 ^ 5).
  rewrite !ALIGN_round_up by (unfold is_gint, G_MININT, G_MAXINT; lia).
  change (2 ^ 7) with 128. change (2 ^ 5) with 32.
  repeat split; try reflexivity; lia.
Qed.

Lemma set_info_padded_geometry_witness :
  (width (negotiated (nv12_info 720 576)) <= stride_w (negotiated (nv12_info 720 576))
   < width (negotiated (nv12_info 720 576)) + 128 /\
   stride_w (negotiated (nv12_info 720 576)) mod 128 = 0) /\
  stride_w (negotiated (nv12_info 720 576)) = 768.
Proof.
  split; [|reflexivity].
  apply (set_info_padded_geometry (nv12_info 720 576) new_instance);
    vm_compute; split; intros Hcmp; discriminate Hcmp.
Defined.

(** ** What a frame changes *)

Lemma frame_record_configuration (c : Z) (videocrc : GstVideocrc) :
  same_configuration videocrc (snd (frame_record c (set_crc 0 videocrc))) /\
  logfile (snd (frame_record c (set_crc 0 videocrc)))
  = log_after [snd (fst (frame_record c (set_crc 0 videocrc)))] (logfile videocrc).
Proof.
  unfold frame_record, same_configuration, log_after. cbv zeta.
  destruct videocrc as [st fn [lines|] m n c0 T w h sw sh off sz];
    simpl; repeat split; reflexivity.
Qed.

Lemma transform_inversion (buf : GstBuffer) (videocrc videocrc' : GstVideocrc)
    (r : GstFlowReturn * crc_line) :
  gst_videocrc_transform_frame_ip buf videocrc = Done (r, videocrc') ->
  exists l,
    frame_crc buf (set_crc 0 videocrc) = Done (tt, l) /\
    (r, videocrc') = frame_record (CRC l) (set_crc 0 videocrc).
Proof.
  unfold gst_videocrc_transform_frame_ip.
  destruct (frame_crc buf (set_crc 0 videocrc)) as [[[] l]| |]; try discriminate.
  intros Hrec. exists l. split; [reflexivity|]. symmetry.
  exact (f_equal (fun o => match o with Done x => x | _ => (r, videocrc') end) Hrec).
Qed.

Lemma same_configuration_refl (a : GstVideocrc) : same_configuration a a.
Proof. unfold same_configuration. repeat split; reflexivity. Qed.

Lemma same_configuration_trans (a b c : GstVideocrc) :
  same_configuration a b -> same_configuration b c -> same_configuration a c.
Proof.
  unfold same_configuration. intros H1 H2.
  destruct H1 as (?&?&?&?&?&?&?&?&?&?), H2 as (?&?&?&?&?&?&?&?&?&?).
  repeat split; congruence.
Qed.

Lemma frame_crc_configuration (buf : GstBuffer) (a b : GstVideocrc) :
  same_configuration a b ->
  frame_crc buf (set_crc 0 a) = frame_crc buf (set_crc 0 b).
Proof.
  intros (_ & _ & _ & HT & Hw & Hh & Hsw & Hsh & _).
  unfold frame_crc.
  change (crc32bit_table (set_crc 0 a)) with (crc32bit_table a).
  change (crc32bit_table (set_crc 0 b)) with (crc32bit_table b).
  change (width (set_crc 0 a)) with (width a).
  change (width (set_crc 0 b)) with (width b).
  change (height (set_crc 0 a)) with (height a).
  change (height (set_crc 0 b)) with (height b).
  change (stride_w (set_crc 0 a)) with (stride_w a).
  change (stride_w (set_crc 0 b)) with (stride_w b).
  change (stride_h (set_crc 0 a)) with (stride_h a).
  change (stride_h (set_crc 0 b)) with (stride_h b).
  rewrite HT, Hw, Hh, Hsw, Hsh. reflexivity.
Qed.

(** X6: whenever the function returns, it returns GST_FLOW_OK and has
    changed three things only: the stored checksum, the frame counter, which
    is one further, and the log file, which has the printed line appended
    when it is open.  The state, the file name, the mask, the table and the
    geometry are as before, and the printed line carries the new counter and
    the new checksum. *)
Theorem transform_touches_record_only (buf : GstBuffer)
    (videocrc videocrc' : GstVideocrc) (flow : GstFlowReturn) (line : crc_line) :
  gst_videocrc_transform_frame_ip buf videocrc = Done ((flow, line), videocrc') ->
  flow = GST_FLOW_OK /\
  same_configuration videocrc videocrc' /\
  frame_num videocrc' = gint_add (frame_num videocrc) 1 /\
  line = CrcLine (frame_num videocrc') (crc videocrc') /\
  logfile videocrc' = log_after [line] (logfile videocrc).
Proof.
  intros Hrun. destruct (transform_inversion _ _ _ _ Hrun) as (l & _ & Hrec).
  pose proof (frame_record_fields (CRC l) (set_crc 0 videocrc)) as Hf.
  pose proof (frame_record_configuration (CRC l) videocrc) as [Hconf Hlog].
  cbv zeta in Hf. rewrite <- Hrec in Hf, Hconf, Hlog. simpl in Hf, Hconf, Hlog.
  destruct Hf as (Hflow & Hline & Hnum & Hcrc & _).
  split; [exact Hflow|]. split; [exact Hconf|]. split; [exact Hnum|].
  split; [|exact Hlog].
  rewrite Hline, Hnum, Hcrc. reflexivity.
Qed.

Lemma transform_touches_record_only_witness :
  same_configuration new_instance
    (MkVideocrc GST_STATE_NULL None None (crc_mask new_instance) 1 0xFFFFFFFF
       (crc32bit_table new_instance) 0 0 0 0 0 0) /\
  CrcLine 1 0xFFFFFFFF = CrcLine 1 0xFFFFFFFF.
Proof.
  destruct (transform_touches_record_only (MkBuffer None None []) new_instance
              (MkVideocrc GST_STATE_NULL None None (crc_mask new_instance) 1
                 0xFFFFFFFF (crc32bit_table new_instance) 0 0 0 0 0 0)
              GST_FLOW_OK (CrcLine 1 0xFFFFFFFF))
    as (_ & Hconf & _ & Hline & _).
  - vm_compute. reflexivity.
  - split; [exact Hconf|exact Hline].
Defined.

Lemma process_frames_configuration (bufs : list GstBuffer) :
  forall (videocrc videocrc' : GstVideocrc) (lines : list crc_line),
    process_frames bufs videocrc = Done (lines, videocrc') ->
    same_configuration videocrc videocrc' /\
    logfile videocrc' = log_after lines (logfile videocrc) /\
    length lines = length bufs.
Proof.
  induction bufs as [|buf rest IH]; intros videocrc videocrc' lines Hrun.
  - injection Hrun as <- <-. split; [apply same_configuration_refl|].
    split; [|reflexivity].
    unfold log_after. destruct (logfile videocrc); [rewrite app_nil_r|]; reflexivity.
  - simpl in Hrun. unfold bind at 1 in Hrun.
    destruct (gst_videocrc_transform_frame_ip buf videocrc)
      as [[[flow line] v1]| |] eqn:Hfirst; try discriminate.
    unfold bind in Hrun.
    destruct (process_frames rest v1) as [[lines' v2]| |] eqn:Hrest;
      try discriminate.
    injection Hrun as <- <-.
    destruct (transform_inversion _ _ _ _ Hfirst) as (l & _ & Hrec).
    pose proof (frame_record_configuration (CRC l) videocrc) as [Hconf Hlog].
    rewrite <- Hrec in Hconf, Hlog. simpl in Hconf, Hlog.
    destruct (IH _ _ _ Hrest) as (Hconf' & Hlog' & Hlen).
    split; [eapply same_configuration_trans; eassumption|].
    split; [|simpl; rewrite Hlen; reflexivity].
    rewrite Hlog', Hlog. unfold log_after.
    destruct (logfile videocrc); [rewrite <- app_assoc|]; reflexivity.
Qed.

(** X7: the checksum of a frame does not depend on the frames processed
    before it: after any frames went through the instance, a buffer gets the
    checksum it gets from the instance as it was. *)
Theorem checksum_ignores_earlier_frames (bufs : list GstBuffer) (buf : GstBuffer)
    (videocrc videocrc1 videocrc2 : GstVideocrc) (lines : list crc_line)
    (flow : GstFlowReturn) (line : crc_line) :
  process_frames bufs videocrc = Done (lines, videocrc1) ->
  gst_videocrc_transform_frame_ip buf videocrc = Done ((flow, line), videocrc2) ->
  exists line' videocrc3,
    gst_videocrc_transform_frame_ip buf videocrc1
    = Done ((GST_FLOW_OK, line'), videocrc3) /\
    line_crc line' = line_crc line /\
    crc videocrc3 = crc videocrc2.
Proof.
  intros Hbefore Hrun.
  destruct (process_frames_configuration _ _ _ _ Hbefore) as (Hconf & _).
  destruct (transform_inversion _ _ _ _ Hrun) as (l & Hl & Hrec).
  pose proof (frame_record_fields (CRC l) (set_crc 0 videocrc)) as Hf.
  cbv zeta in Hf. rewrite <- Hrec in Hf. simpl in Hf.
  destruct Hf as (_ & Hline & _ & Hcrc & _).
  unfold gst_videocrc_transform_frame_ip.
  rewrite <- (frame_crc_configuration buf _ _ Hconf), Hl.
  pose proof (frame_record_fields (CRC l) (set_crc 0 videocrc1)) as Hf1.
  cbv zeta in Hf1. destruct Hf1 as (Hflow1 & Hline1 & _ & Hcrc1 & _).
  destruct (frame_record (CRC l) (set_crc 0 videocrc1)) as [[flow1 line1] v3].
  simpl in Hflow1, Hline1, Hcrc1. subst flow1.
  exists line1, v3. split; [reflexivity|].
  rewrite Hline, Hline1, Hcrc, Hcrc1. split; reflexivity.
Qed.

(** X8: frames processed one after the other append to an open log file
    exactly the lines they print, in order and after what was there; without
    an open log file none appears; there is one line per frame, and the
    configuration is the one before the first frame. *)
Theorem log_file_mirrors_lines (bufs : list GstBuffer)
    (videocrc videocrc' : GstVideocrc) (lines : list crc_line) :
  process_frames bufs videocrc = Done (lines, videocrc') ->
  logfile videocrc' = log_after lines (logfile videocrc) /\
  length lines = length bufs /\
  same_configuration videocrc videocrc'.
Proof.
  intros Hrun.
  destruct (process_frames_configuration _ _ _ _ Hrun) as (Hconf & Hlog & Hlen).
  split; [exact Hlog|]. split; [exact Hlen|exact Hconf].
Qed.

Lemma checksum_ignores_earlier_frames_witness :
  exists line' videocrc3,
    gst_videocrc_transform_frame_ip example_buffer (snd example_run)
    = Done ((GST_FLOW_OK, line'), videocrc3) /\
    line_crc line' = line_crc (snd (fst example_single)) /\
    crc videocrc3 = crc (snd example_single).
Proof.
  apply (checksum_ignores_earlier_frames example_frames example_buffer
           example_start (snd example_run) (snd example_single)
           (fst example_run) (fst (fst example_single))
           (snd (fst example_single))).
  - vm_compute. reflexivity.
  - vm_compute. reflexivity.
Defined.

Lemma log_file_mirrors_lines_witness :
  logfile (snd example_run) = log_after (fst example_run) (logfile example_start) /\
  length (fst example_run) = length example_frames /\
  same_configuration example_start (snd example_run).
Proof.
  apply (log_file_mirrors_lines example_frames example_start (snd example_run)
           (fst example_run)).
  vm_compute. reflexivity.
Defined.

(** ** Padding *)

Lemma planar_run_exact (videocrc : GstVideocrc) (region : list Z) :
  planes_fit (width videocrc) (height videocrc) (stride_w videocrc)
    (stride_h videocrc) (Z.of_nat (length region)) ->
  exists l,
    planar_run videocrc (Mapped region) = Done (tt, l) /\
    derefs l = planar_offsets videocrc /\
    CRC l =
      guint_not
        (crc_fold (crc32bit_table videocrc)
           (guint_not
              (crc_fold (crc32bit_table videocrc)
                 (guint_not
                    (crc_fold (crc32bit_table videocrc) 0
                       (map (peek region)
                          (luma_pair_offsets (width videocrc) (height videocrc)
                             (stride_w videocrc)))))
                 (map (peek region)
                    (chroma_offsets (stride_w videocrc * stride_h videocrc) 0
                       (width videocrc) (height videocrc) (stride_w videocrc)))))
           (map (peek region)
              (chroma_offsets (stride_w videocrc * stride_h videocrc) 1
                 (width videocrc) (height videocrc) (stride_w videocrc)))).
Proof.
  intros Hfit. unfold planar_run.
  destruct (planar_crc_run (crc32bit_table videocrc) region _ _ _ _ Hfit
              (MkLocals 0 0 [])) as (k0 & k1 & k2 & Hrun).
  eexists. split; [exact Hrun|]. split; [|reflexivity].
  unfold planar_offsets. simpl. rewrite <- app_assoc. reflexivity.
Qed.

Lemma map_peek_agree (region region' offs : list Z) :
  (forall off, In off offs -> peek region off = peek region' off) ->
  map (peek region) offs = map (peek region') offs.
Proof. intros Hagree. apply List.map_ext_in. exact Hagree. Qed.

(** X9: the bytes of the padding do not enter the checksum: two mapped
    regions of the same size that hold the padded planes and agree at the
    offsets the three loops walk give the same checksum, whatever they hold
    between the columns and the stride, between the rows and the padded
    height and after the chroma rows. *)
Theorem padding_bytes_unseen (videocrc : GstVideocrc) (region region' : list Z) :
  length region = length region' ->
  planes_fit (width videocrc) (height videocrc) (stride_w videocrc)
    (stride_h videocrc) (Z.of_nat (length region)) ->
  (forall off, In off (planar_offsets videocrc) ->
     peek region off = peek region' off) ->
  exists l l',
    planar_run videocrc (Mapped region) = Done (tt, l) /\
    planar_run videocrc (Mapped region') = Done (tt, l') /\
    CRC l = CRC l' /\ derefs l = derefs l'.
Proof.
  intros Hlen Hfit Hagree.
  destruct (planar_run_exact videocrc region Hfit) as (l & Hrun & Hd & Hc).
  assert (Hfit' : planes_fit (width videocrc) (height videocrc) (stride_w videocrc)
                    (stride_h videocrc) (Z.of_nat (length region')))
    by (rewrite <- Hlen; exact Hfit).
  destruct (planar_run_exact videocrc region' Hfit') as (l' & Hrun' & Hd' & Hc').
  exists l, l'. split; [exact Hrun|]. split; [exact Hrun'|].
  split; [|congruence].
  rewrite Hc, Hc'. unfold planar_offsets in Hagree.
  rewrite (map_peek_agree region region' (luma_pair_offsets _ _ _)),
    (map_peek_agree region region' (chroma_offsets _ 0 _ _ _)),
    (map_peek_agree region region' (chroma_offsets _ 1 _ _ _));
    [reflexivity|..];
    intros off Hin; apply Hagree; rewrite !in_app_iff; tauto.
Qed.

Lemma padding_bytes_unseen_witness :
  exists l l',
    planar_run (negotiated (nv12_info 2 2)) (Mapped (zero_region 6144))
    = Done (tt, l) /\
    planar_run (negotiated (nv12_info 2 2)) (Mapped (zero_region_but 6144 2 255))
    = Done (tt, l') /\
    CRC l = CRC l' /\ derefs l = derefs l'.
Proof.
  apply (padding_bytes_unseen (negotiated (nv12_info 2 2)) (zero_region 6144)
           (zero_region_but 6144 2 255)).
  - vm_compute. reflexivity.
  - planes_fit_by_computation.
  - intros off Hin. vm_compute in Hin.
    repeat (destruct Hin as [<-|Hin]; [vm_compute; reflexivity|]).
    destruct Hin.
Defined.

(** ** Properties *)

(** X10: a property read back after a write gives the value written: the
    mask reduced to 32 bits in every state, the location in the states NULL
    and READY; in the other states the write of the location is dropped and
    the old name is read back.  An identifier that is neither of the two
    leaves the instance as it is and reads nothing. *)
Theorem property_write_then_read (videocrc : GstVideocrc) (v : Z)
    (s : option string) (prop_id : Z) (value : GValue) :
  gst_videocrc_get_property PROP_CRC_MASK
    (gst_videocrc_set_property PROP_CRC_MASK (GValueUint v) videocrc)
  = Some (GValueUint (to_guint v)) /\
  gst_videocrc_get_property PROP_LOCATION
    (gst_videocrc_set_property PROP_LOCATION (GValueString s) videocrc)
  = Some (GValueString
            (if location_change_allowed (gst_state videocrc) then s
             else filename videocrc)) /\
  gst_videocrc_get_property PROP_CRC_MASK
    (gst_videocrc_set_property PROP_LOCATION (GValueString s) videocrc)
  = Some (GValueUint (crc_mask videocrc)) /\
  gst_videocrc_get_property PROP_LOCATION
    (gst_videocrc_set_property PROP_CRC_MASK (GValueUint v) videocrc)
  = Some (GValueString (filename videocrc)) /\
  (prop_id <> PROP_LOCATION -> prop_id <> PROP_CRC_MASK ->
   gst_videocrc_set_property prop_id value videocrc = videocrc /\
   gst_videocrc_get_property prop_id videocrc = None).
Proof.
  split; [reflexivity|].
  split.
  { unfold gst_videocrc_set_property, gst_videocrc_get_property,
      gst_videocrc_set_location. simpl.
    destruct (gst_state videocrc), s; reflexivity. }
  split.
  { unfold gst_videocrc_set_property, gst_videocrc_get_property,
      gst_videocrc_set_location. simpl.
    destruct (gst_state videocrc), s; reflexivity. }
  split; [reflexivity|].
  intros Hloc Hmask.
  unfold gst_videocrc_set_property, gst_videocrc_get_property.
  destruct (Z.eqb_spec prop_id PROP_LOCATION) as [|_]; [contradiction|].
  destruct (Z.eqb_spec prop_id PROP_CRC_MASK) as [|_]; [contradiction|].
  split; reflexivity.
Qed.

Lemma property_write_then_read_witness :
  gst_videocrc_set_property 7 (GValueUint 5) playing_instance = playing_instance /\
  gst_videocrc_get_property 7 playing_instance = None.
Proof.
  apply (property_write_then_read playing_instance 0 None 7 (GValueUint 5)).
  - intros Heq. discriminate Heq.
  - intros Heq. discriminate Heq.
Defined.

Lemma frame_record_mask (c v : Z) (videocrc : GstVideocrc) :
  frame_record c (set_crc 0 (set_crc_mask v videocrc))
  = (fst (frame_record c (set_crc 0 videocrc)),
     set_crc_mask v (snd (frame_record c (set_crc 0 videocrc)))).
Proof.
  unfold frame_record. cbv zeta.
  destruct videocrc as [st fn [lines|] m n c0 T w h sw sh off sz]; reflexivity.
Qed.

(** X11: a write to the crc-mask property changes no checksum: a frame
    processed after the write gets the flow value, the line and the instance
    it gets without the write, the instance with the written mask in it. *)
Theorem mask_write_changes_no_checksum (buf : GstBuffer) (value : GValue)
    (videocrc : GstVideocrc) :
  gst_videocrc_transform_frame_ip buf
    (gst_videocrc_set_property PROP_CRC_MASK value videocrc)
  = match gst_videocrc_transform_frame_ip buf videocrc with
    | Done (r, videocrc') =>
        Done (r, gst_videocrc_set_property PROP_CRC_MASK value videocrc')
    | SegFault addr => SegFault addr
    | OutOfFuel => OutOfFuel
    end.
Proof.
  change (gst_videocrc_set_property PROP_CRC_MASK value videocrc)
    with (set_crc_mask (g_value_get_uint value) videocrc).
  unfold gst_videocrc_transform_frame_ip.
  change (frame_crc buf (set_crc 0 (set_crc_mask (g_value_get_uint value) videocrc)))
    with (frame_crc buf (set_crc 0 videocrc)).
  destruct (frame_crc buf (set_crc 0 videocrc)) as [[[] l]| |]; try reflexivity.
  rewrite frame_record_mask.
  destruct (frame_record (CRC l) (set_crc 0 videocrc)) as [r v']. reflexivity.
Qed.

(** ** Start, stop and the log file *)

Lemma start_configuration (fopen_ok : bool) (videocrc : GstVideocrc) :
  same_configuration videocrc (snd (gst_videocrc_start fopen_ok videocrc)) /\
  frame_num (snd (gst_videocrc_start fopen_ok videocrc)) = frame_num videocrc /\
  fst (gst_videocrc_start fopen_ok videocrc) = true /\
  logfile (snd (gst_videocrc_start fopen_ok videocrc))
  = match filename videocrc with
    | Some _ => if fopen_ok then Some [] else None
    | None => None
    end.
Proof.
  unfold gst_videocrc_start, same_configuration.
  destruct (filename videocrc) eqn:Hname; simpl; rewrite ?Hname;
    repeat split; reflexivity.
Qed.

Lemma stop_configuration (videocrc : GstVideocrc) :
  same_configuration videocrc (snd (gst_videocrc_stop videocrc)) /\
  frame_num (snd (gst_videocrc_stop videocrc)) = frame_num videocrc /\
  fst (gst_videocrc_stop videocrc) = true /\
  logfile (snd (gst_videocrc_stop videocrc)) = None.
Proof.
  unfold gst_videocrc_stop, same_configuration.
  destruct (logfile videocrc) eqn:Hlog; simpl; rewrite ?Hlog;
    repeat split; reflexivity.
Qed.

(** X12: start returns TRUE whether or not the log file could be opened.
    After a start, the frames processed leave in the log file exactly the
    lines they printed when a name is stored and fopen gave a stream; when
    fopen failed, or no name is stored, they print their lines and no log
    file exists.  Stop returns TRUE and leaves no log file open; the
    configuration is the one before the start. *)
Theorem log_between_start_and_stop (fopen_ok : bool) (bufs : list GstBuffer)
    (videocrc videocrc' : GstVideocrc) (lines : list crc_line) :
  process_frames bufs (snd (gst_videocrc_start fopen_ok videocrc))
  = Done (lines, videocrc') ->
  fst (gst_videocrc_start fopen_ok videocrc) = true /\
  logfile videocrc'
  = match filename videocrc with
    | Some _ => if fopen_ok then Some lines else None
    | None => None
    end /\
  fst (gst_videocrc_stop videocrc') = true /\
  logfile (snd (gst_videocrc_stop videocrc')) = None /\
  same_configuration videocrc (snd (gst_videocrc_stop videocrc')).
Proof.
  intros Hrun.
  destruct (start_configuration fopen_ok videocrc) as (Hc0 & _ & Hok & Hlog0).
  destruct (process_frames_configuration _ _ _ _ Hrun) as (Hc1 & Hlog1 & _).
  destruct (stop_configuration videocrc') as (Hc2 & _ & Hok2 & Hlog2).
  split; [exact Hok|]. split.
  - rewrite Hlog1, Hlog0. destruct (filename videocrc), fopen_ok; reflexivity.
  - split; [exact Hok2|]. split; [exact Hlog2|].
    eapply same_configuration_trans; [exact Hc0|].
    eapply same_configuration_trans; [exact Hc1|exact Hc2].
Qed.

Lemma log_between_start_and_stop_witness :
  logfile (snd example_run) = Some (fst example_run) /\
  logfile (snd (gst_videocrc_stop (snd example_run))) = None.
Proof.
  destruct (log_between_start_and_stop true example_frames
              (snd (gst_videocrc_set_location (Some "crc.log"%string)
                      (negotiated (nv12_info 2 2))))
              (snd example_run) (fst example_run))
    as (_ & Hlog & _ & Hstop & _).
  - vm_compute. reflexivity.
  - split; [exact Hlog|exact Hstop].
Defined.

Lemma frame_ok_configuration (a b : GstVideocrc) (buf : GstBuffer) :
  same_configuration a b -> frame_ok a buf -> frame_ok b buf.
Proof.
  intros (_ & _ & _ & _ & Hw & Hh & Hsw & Hsh & _).
  unfold frame_ok. rewrite Hw, Hh, Hsw, Hsh. tauto.
Qed.

(** X13: stop and start do not reset the frame counter: the frames
    processed after a stop and a start are numbered on from the last number
    before the stop. *)
Theorem numbering_continues_after_restart (fopen_ok : bool)
    (before after : list GstBuffer) (videocrc : GstVideocrc) (a : nat) :
  frame_num videocrc = Z.of_nat a ->
  Z.of_nat (a + length before + length after) <= G_MAXINT ->
  Forall (frame_ok videocrc) before ->
  Forall (frame_ok videocrc) after ->
  exists lines1 videocrc1 lines2 videocrc2,
    process_frames before videocrc = Done (lines1, videocrc1) /\
    process_frames after
      (snd (gst_videocrc_start fopen_ok (snd (gst_videocrc_stop videocrc1))))
    = Done (lines2, videocrc2) /\
    map line_frame lines1 = map Z.of_nat (seq (Datatypes.S a) (length before)) /\
    map line_frame lines2
    = map Z.of_nat (seq (Datatypes.S (a + length before)) (length after)).
Proof.
  intros Hnum Hmax Hbefore Hafter.
  destruct (process_frames_from before videocrc a Hnum ltac:(lia) Hbefore)
    as (lines1 & v1 & Hrun1 & Hlines1 & Hnum1).
  destruct (process_frames_configuration _ _ _ _ Hrun1) as (Hc1 & _).
  destruct (stop_configuration v1) as (Hc2 & Hn2 & _).
  destruct (start_configuration fopen_ok (snd (gst_videocrc_stop v1)))
    as (Hc3 & Hn3 & _).
  set (v2 := snd (gst_videocrc_start fopen_ok (snd (gst_videocrc_stop v1)))) in *.
  assert (Hconf : same_configuration videocrc v2).
  { eapply same_configuration_trans; [exact Hc1|].
    eapply same_configuration_trans; [exact Hc2|exact Hc3]. }
  destruct (process_frames_from after v2 (a + length before))
    as (lines2 & v3 & Hrun2 & Hlines2 & _).
  - rewrite Hn3, Hn2, Hnum1. reflexivity.
  - lia.
  - eapply Forall_impl; [exact Hafter|].
    intros buf. apply frame_ok_configuration. exact Hconf.
  - exists lines1, v1, lines2, v3. repeat split; assumption.
Qed.

Lemma numbering_continues_after_restart_witness :
  exists lines1 videocrc1 lines2 videocrc2,
    process_frames example_frames example_start = Done (lines1, videocrc1) /\
    process_frames [example_buffer]
      (snd (gst_videocrc_start true (snd (gst_videocrc_stop videocrc1))))
    = Done (lines2, videocrc2) /\
    map line_frame lines1 = [1; 2] /\
    map line_frame lines2 = [3].
Proof.
  assert (Hion : frame_ok example_start (ion_frame 6144 (Some (zero_region 6144)))).
  { exists (zero_region 6144). split; [vm_compute; reflexivity|].
    planes_fit_by_computation. }
  apply (numbering_continues_after_restart true example_frames [example_buffer]
           example_start 0).
  - reflexivity.
  - vm_compute. intros Hcmp. discriminate Hcmp.
  - repeat constructor; [|exact Hion].
    vm_compute. intros Hcmp. discriminate Hcmp.
  - repeat constructor. vm_compute. intros Hcmp. discriminate Hcmp.
Defined.

(** ** Construction *)

(** X14: whatever the instance holds before, as long as its table has its
    256 entries, gst_videocrc_init leaves the default polynomial as the mask
    and the table of the default polynomial, the counter and the checksum at
    0 and no log file; the state, the file name and the geometry stay. *)
Theorem init_installs_default_polynomial (videocrc0 : GstVideocrc) :
  length (crc32bit_table videocrc0) = 256%nat ->
  exists videocrc,
    gst_videocrc_init videocrc0 = Done (tt, videocrc) /\
    crc_mask videocrc = GST_VIDEO_DEFAULT_CRC_MASK /\
    crc32bit_table videocrc
    = map (crc_remainder GST_VIDEO_DEFAULT_CRC_MASK) (zrange 256) /\
    crc32bit_table videocrc = crc32bit_table new_instance /\
    frame_num videocrc = 0 /\ crc videocrc = 0 /\ logfile videocrc = None /\
    gst_state videocrc = gst_state videocrc0 /\
    filename videocrc = filename videocrc0 /\
    (width videocrc, height videocrc, stride_w videocrc, stride_h videocrc,
     offset videocrc, size videocrc)
    = (width videocrc0, height videocrc0, stride_w videocrc0, stride_h videocrc0,
       offset videocrc0, size videocrc0).
Proof.
  intros Hlen. unfold gst_videocrc_init.
  eexists. split; [apply init_crc32bit_table_run; exact Hlen|].
  unfold set_crc32bit_table. cbn [crc_mask crc32bit_table frame_num crc logfile
    gst_state filename width height stride_w stride_h offset size].
  change (to_guint (crc_mask (gst_videocrc_reset videocrc0)))
    with GST_VIDEO_DEFAULT_CRC_MASK.
  split; [reflexivity|]. split; [reflexivity|].
  split; [symmetry; apply new_instance_table|].
  repeat split; reflexivity.
Qed.

Lemma init_installs_default_polynomial_witness :
  exists videocrc,
    gst_videocrc_init playing_instance = Done (tt, videocrc) /\
    crc_mask videocrc = GST_VIDEO_DEFAULT_CRC_MASK /\
    crc32bit_table videocrc = crc32bit_table new_instance.
Proof.
  destruct (init_installs_default_polynomial playing_instance)
    as (videocrc & Hrun & Hmask & _ & Htable & _).
  - reflexivity.
  - exists videocrc. split; [exact Hrun|]. split; [exact Hmask|exact Htable].
Defined.

(** ** A failed mapping and degenerate geometries *)

Lemma for_loop_enter {S : Type} (fuel : nat) (cond : Z -> bool) (incr : Z -> Z)
    (body : Z -> M S unit) (i : Z) (s : S) :
  cond i = true ->
  for_loop (Datatypes.S fuel) cond incr body i s
  = bind (body i) (fun _ => for_loop fuel cond incr body (incr i)) s.
Proof. intros Hc. simpl. rewrite Hc. reflexivity. Qed.

Lemma for_loop_skip {S : Type} (fuel : nat) (cond : Z -> bool) (incr : Z -> Z)
    (body : Z -> M S unit) (i : Z) (s : S) :
  cond i = false ->
  for_loop (Datatypes.S fuel) cond incr body i s = Done (tt, s).
Proof. intros Hc. simpl. rewrite Hc. reflexivity. Qed.

Lemma bind_fault {S A B : Type} (m : M S A) (f : A -> M S B) (s : S) (addr : Z) :
  m s = SegFault addr -> bind m f s = SegFault addr.
Proof. unfold bind. intros ->. reflexivity. Qed.

Lemma shiftr_1_positive (w : Z) : 2 <= w -> 0 < Z.shiftr w 1.
Proof. intros Hw. rewrite Z.shiftr_div_pow2 by lia. change (2 ^ 1) with 2. lia. Qed.

Lemma shiftr_1_nonpositive (w : Z) : w <= 1 -> Z.shiftr w 1 <= 0.
Proof. intros Hw. rewrite Z.shiftr_div_pow2 by lia. change (2 ^ 1) with 2. lia. Qed.

(** X15: when the mapping of a frame with ion metadata failed and the
    geometry has at least one luma pair (a row, and two columns), the
    function makes its first load through MAP_FAILED, at offset 0, and does
    not return: no flow value, no line, no count. *)
Theorem failed_mapping_faults_at_first_load (buf : GstBuffer)
    (ion_meta : GstIonBufFdMeta) (videocrc : GstVideocrc) :
  ionfd_meta buf = Some ion_meta ->
  frame_mapping buf ion_meta = MAP_FAILED ->
  1 <= height videocrc -> 2 <= width videocrc ->
  gst_videocrc_transform_frame_ip buf videocrc = SegFault 0.
Proof.
  intros Hmeta Hmap Hh Hw.
  unfold gst_videocrc_transform_frame_ip.
  rewrite (frame_crc_planar _ _ _ Hmeta), Hmap.
  unfold planar_run.
  change (width (set_crc 0 videocrc)) with (width videocrc).
  change (height (set_crc 0 videocrc)) with (height videocrc).
  pose proof (shiftr_1_positive _ Hw) as Hpairs.
  assert (Hluma : luma_plane MAP_FAILED (crc32bit_table (set_crc 0 videocrc))
                    (width videocrc) (height videocrc)
                    (stride_w (set_crc 0 videocrc)) (MkLocals 0 0 [])
                  = SegFault 0).
  { unfold luma_plane. apply bind_fault. unfold fuel_upto.
    rewrite for_loop_enter by (apply Z.ltb_lt; lia).
    apply bind_fault. unfold luma_row.
    rewrite (bind_done _ _ _ (set_k 0 (MkLocals 0 0 [])) tt) by reflexivity.
    unfold fuel_upto.
    rewrite for_loop_enter by (apply Z.ltb_lt; lia).
    apply bind_fault. unfold luma_pair.
    rewrite (bind_done _ _ _ (set_k (gint_add 0 1) (MkLocals 0 0 [])) 0)
      by reflexivity.
    apply bind_fault.
    change (gint_mul 0 (stride_w (set_crc 0 videocrc))) with 0.
    reflexivity. }
  unfold planar_crc. rewrite (bind_fault _ _ _ _ Hluma). reflexivity.
Qed.

Lemma failed_mapping_faults_at_first_load_witness :
  gst_videocrc_transform_frame_ip (ion_frame 6144 None)
    (negotiated (nv12_info 720 576))
  = SegFault 0.
Proof.
  apply (failed_mapping_faults_at_first_load (ion_frame 6144 None)
           (MkIonMeta 3 6144 0) (negotiated (nv12_info 720 576))).
  - reflexivity.
  - reflexivity.
  - vm_compute. intros Hcmp. discriminate Hcmp.
  - vm_compute. intros Hcmp. discriminate Hcmp.
Defined.

Lemma rows_without_pairs (buf_ptr : mapping) (T : list Z) (w h sw : Z)
    (l : locals) :
  w <= 1 -> h <= 1 ->
  exists k',
    luma_plane buf_ptr T w h sw l
    = Done (tt, MkLocals (guint_not (CRC l)) k' (derefs l)).
Proof.
  intros Hw Hh. pose proof (shiftr_1_nonpositive _ Hw) as Hpairs.
  unfold luma_plane, fuel_upto.
  destruct (Z_lt_le_dec h 1) as [Hlow|Hone].
  - exists (k l).
    rewrite (bind_done _ _ _ l tt)
      by (apply for_loop_skip; apply Z.ltb_ge; lia).
    reflexivity.
  - assert (h = 1) by lia. subst h. exists 0.
    change (Z.to_nat 1) with 1%nat.
    assert (Hrow : luma_row buf_ptr T w sw 0 l = Done (tt, set_k 0 l)).
    { unfold luma_row.
      rewrite (bind_done _ _ _ (set_k 0 l) tt) by reflexivity.
      apply for_loop_skip. apply Z.ltb_ge. lia. }
    rewrite (bind_done _ _ _ (set_k 0 l) tt).
    + reflexivity.
    + rewrite for_loop_enter by reflexivity.
      rewrite (bind_done _ _ _ _ _ Hrow).
      apply for_loop_skip. reflexivity.
Qed.

Lemma chroma_without_rows (rows : Z -> M locals unit) (h : Z) (l : locals) :
  h <= 1 ->
  (for_loop (fuel_upto (Z.quot h 2)) (fun i => i <? Z.quot h 2)
     (fun i => gint_add i 1) rows 0 ;; crc_complement)%cmd l
  = Done (tt, MkLocals (guint_not (CRC l)) (k l) (derefs l)).
Proof.
  intros Hh. unfold fuel_upto.
  rewrite (bind_done _ _ _ l tt); [reflexivity|].
  apply for_loop_skip. apply Z.ltb_ge. lia.
Qed.

(** X16: with a width and a height of at most 1, the instance before any
    negotiation included, a frame with ion metadata is given the checksum
    0xFFFFFFFF and GST_FLOW_OK without one byte being loaded, whatever the
    mapping holds and whether or not it succeeded. *)
Theorem degenerate_geometry_reads_nothing (buf : GstBuffer)
    (ion_meta : GstIonBufFdMeta) (videocrc : GstVideocrc) :
  ionfd_meta buf = Some ion_meta ->
  width videocrc <= 1 -> height videocrc <= 1 ->
  (exists l, frame_crc buf videocrc = Done (tt, l) /\ derefs l = []) /\
  exists videocrc',
    gst_videocrc_transform_frame_ip buf videocrc
    = Done ((GST_FLOW_OK, CrcLine (gint_add (frame_num videocrc) 1) 0xFFFFFFFF),
            videocrc') /\
    crc videocrc' = 0xFFFFFFFF.
Proof.
  intros Hmeta Hw Hh.
  assert (Hrun : forall v, width v = width videocrc -> height v = height videocrc ->
            exists k', frame_crc buf v = Done (tt, MkLocals 0xFFFFFFFF k' [])).
  { intros v Hvw Hvh. rewrite (frame_crc_planar _ _ _ Hmeta).
    unfold planar_run, planar_crc. rewrite Hvw, Hvh.
    destruct (rows_without_pairs (frame_mapping buf ion_meta) (crc32bit_table v)
                (width videocrc) (height videocrc) (stride_w v) (MkLocals 0 0 [])
                Hw Hh) as [k' Hluma].
    exists k'. rewrite (bind_done _ _ _ _ _ Hluma).
    unfold chroma_u_plane, chroma_v_plane.
    rewrite (bind_done _ _ _ _ _ (chroma_without_rows _ _ _ Hh)).
    rewrite (chroma_without_rows _ _ _ Hh). reflexivity. }
  split.
  - destruct (Hrun videocrc eq_refl eq_refl) as [k' Hk].
    eexists. split; [exact Hk|reflexivity].
  - destruct (Hrun (set_crc 0 videocrc) eq_refl eq_refl) as [k' Hk].
    unfold gst_videocrc_transform_frame_ip. rewrite Hk. cbn [CRC].
    pose proof (frame_record_fields 0xFFFFFFFF (set_crc 0 videocrc)) as Hf.
    cbv zeta in Hf. destruct Hf as (Hflow & Hline & _ & Hcrc & _).
    destruct (frame_record 0xFFFFFFFF (set_crc 0 videocrc)) as [[flow line] v'].
    simpl in Hflow, Hline, Hcrc. subst flow line.
    exists v'. split; [reflexivity|exact Hcrc].
Qed.

Lemma degenerate_geometry_reads_nothing_witness :
  (exists l,
     frame_crc (ion_frame 6144 (Some (zero_region_but 6144 0 255))) new_instance
     = Done (tt, l) /\ derefs l = []) /\
  exists videocrc',
    gst_videocrc_transform_frame_ip
      (ion_frame 6144 (Some (zero_region_but 6144 0 255))) new_instance
    = Done ((GST_FLOW_OK, CrcLine (gint_add (frame_num new_instance) 1) 0xFFFFFFFF),
            videocrc') /\
    crc videocrc' = 0xFFFFFFFF.
Proof.
  apply (degenerate_geometry_reads_nothing
           (ion_frame 6144 (Some (zero_region_but 6144 0 255)))
           (MkIonMeta 3 6144 0) new_instance).
  - reflexivity.
  - vm_compute. intros Hcmp. discriminate Hcmp.
  - vm_compute. intros Hcmp. discriminate Hcmp.
Defined.

(** ** No offset twice *)

Lemma NoDup_map_in {A B : Type} (f : A -> B) (l : list A) :
  (forall x y, In x l -> In y l -> f x = f y -> x = y) ->
  List.NoDup l -> List.NoDup (map f l).
Proof.
  intros Hinj Hl. induction Hl as [|x l Hx Hl IH]; simpl; constructor.
  - rewrite in_map_iff. intros (y & Heq & Hy).
    apply Hinj in Heq; [subst y; contradiction|right; exact Hy|left; reflexivity].
  - apply IH. intros a b Ha Hb. apply Hinj; right; assumption.
Qed.

Lemma NoDup_flat_map {A B : Type} (f : A -> list B) (l : list A) :
  List.NoDup l ->
  (forall x, In x l -> List.NoDup (f x)) ->
  (forall x y z, In x l -> In y l -> In z (f x) -> In z (f y) -> x = y) ->
  List.NoDup (flat_map f l).
Proof.
  intros Hl. induction Hl as [|x l Hx Hl IH]; intros Hrows Hapart; simpl;
    [constructor|].
  apply List.NoDup_app.
  - apply Hrows. left. reflexivity.
  - apply IH.
    + intros y Hy. apply Hrows. right. exact Hy.
    + intros a b z Ha Hb. apply Hapart; right; assumption.
  - intros z Hz Hin. apply List.in_flat_map in Hin. destruct Hin as (y & Hy & Hzy).
    assert (x = y) by (apply (Hapart x y z); [left; reflexivity|right; exact Hy|exact Hz|exact Hzy]).
    subst y. contradiction.
Qed.

Lemma NoDup_zrange (n : Z) : List.NoDup (zrange n).
Proof.
  unfold zrange. apply NoDup_map_in; [|apply List.seq_NoDup].
  intros x y _ _. apply Nat2Z.inj.
Qed.

Lemma NoDup_even_cols (n : Z) : List.NoDup (even_cols n).
Proof. unfold even_cols. apply List.NoDup_filter, NoDup_zrange. Qed.

Lemma even_cols_In (n j : Z) :
  In j (even_cols n) <-> 0 <= j < n /\ Z.even j = true.
Proof. unfold even_cols. rewrite List.filter_In, zrange_In. reflexivity. Qed.

(** A row and a column within the stride determine the offset, and back. *)
Lemma row_column_unique (sw r c r' c' : Z) :
  0 <= c < sw -> 0 <= c' < sw -> r * sw + c = r' * sw + c' ->
  r = r' /\ c = c'.
Proof.
  intros Hc Hc' Heq.
  assert (Hr : r = r').
  { destruct (Z.lt_trichotomy r r') as [Hlt|[Heq'|Hgt]]; [|exact Heq'|].
    - assert (r * sw + sw <= r' * sw) by nia. lia.
    - assert (r' * sw + sw <= r * sw) by nia. lia. }
  subst r'. split; [reflexivity|lia].
Qed.

Section Distinct.
Variables width height stride_w stride_h n : Z.
Hypothesis Hfit : planes_fit width height stride_w stride_h n.

Lemma luma_pair_offsets_In (x : Z) :
  In x (luma_pair_offsets width height stride_w) ->
  exists r c, 0 <= r < height /\ 0 <= c < stride_w /\ x = r * stride_w + c /\
              x < stride_w * stride_h.
Proof.
  unfold luma_pair_offsets, plane_offsets. intros Hin.
  apply List.in_flat_map in Hin. destruct Hin as (r & Hr & Hin).
  apply List.in_map_iff in Hin. destruct Hin as (c & <- & Hc).
  apply zrange_In in Hr. apply zrange_In in Hc.
  pose proof (fit_shiftr _ _ _ _ _ Hfit) as Hs.
  destruct Hfit as (Hw & Hh & Hsw & Hsh & Hn).
  exists r, c. split; [exact Hr|]. split; [lia|]. split; [reflexivity|].
  assert ((r + 1) * stride_w <= stride_h * stride_w) by nia. lia.
Qed.

Lemma chroma_offsets_In (d x : Z) :
  0 <= d <= 1 ->
  In x (chroma_offsets (stride_w * stride_h) d width height stride_w) ->
  exists i j, 0 <= i < Z.quot height 2 /\ 0 <= j < width /\ Z.even j = true /\
              j + 1 < stride_w /\
              x = stride_w * stride_h + i * stride_w + j + d /\
              0 <= i * stride_w.
Proof.
  intros Hd. unfold chroma_offsets. intros Hin.
  apply List.in_flat_map in Hin. destruct Hin as (i & Hi & Hin).
  apply List.in_map_iff in Hin. destruct Hin as (j & <- & Hj).
  apply zrange_In in Hi. apply even_cols_In in Hj. destruct Hj as [Hj Hev].
  exists i, j. split; [exact Hi|]. split; [exact Hj|]. split; [exact Hev|].
  destruct Hfit as (Hw & Hh & Hsw & Hsh & Hn).
  pose proof Hev as Hq. apply Z.even_spec in Hq. destruct Hq as [q ->].
  split; [lia|]. split; [reflexivity|]. nia.
Qed.

Lemma NoDup_luma_pair_offsets :
  List.NoDup (luma_pair_offsets width height stride_w).
Proof.
  pose proof (fit_shiftr _ _ _ _ _ Hfit) as Hs.
  assert (Hcols : 2 * Z.shiftr width 1 <= stride_w)
    by (destruct Hfit as (Hw & Hh & Hsw & Hsh & Hn); lia).
  unfold luma_pair_offsets, plane_offsets.
  apply NoDup_flat_map; [apply NoDup_zrange| |].
  - intros r _. apply NoDup_map_in; [|apply NoDup_zrange].
    intros c c' _ _ Heq. lia.
  - intros r r' z _ _ Hz Hz'.
    apply List.in_map_iff in Hz. destruct Hz as (c & <- & Hc).
    apply List.in_map_iff in Hz'. destruct Hz' as (c' & Heq & Hc').
    apply zrange_In in Hc. apply zrange_In in Hc'.
    symmetry in Heq.
    apply (row_column_unique stride_w r c r' c'); [lia|lia|exact Heq].
Qed.

Lemma NoDup_chroma_offsets (d : Z) :
  List.NoDup (chroma_offsets (stride_w * stride_h) d width height stride_w).
Proof.
  assert (Hsw : width <= stride_w)
    by (destruct Hfit as (Hw & Hh & Hsw & Hsh & Hn); lia).
  unfold chroma_offsets.
  apply NoDup_flat_map; [apply NoDup_zrange| |].
  - intros i _. apply NoDup_map_in; [|apply NoDup_even_cols].
    intros j j' _ _ Heq. lia.
  - intros i i' z _ _ Hz Hz'.
    apply List.in_map_iff in Hz. destruct Hz as (j & <- & Hj).
    apply List.in_map_iff in Hz'. destruct Hz' as (j' & Heq & Hj').
    apply even_cols_In in Hj. apply even_cols_In in Hj'.
    apply (row_column_unique stride_w i j i' j'); lia.
Qed.

Lemma NoDup_plane_offsets :
  List.NoDup
    (luma_pair_offsets width height stride_w ++
     chroma_offsets (stride_w * stride_h) 0 width height stride_w ++
     chroma_offsets (stride_w * stride_h) 1 width height stride_w).
Proof.
  apply List.NoDup_app; [apply NoDup_luma_pair_offsets| |].
  - apply List.NoDup_app; [apply NoDup_chroma_offsets..|].
    intros x Hu Hv.
    apply chroma_offsets_In in Hu; [|lia]. apply chroma_offsets_In in Hv; [|lia].
    destruct Hu as (i & j & Hi & Hj & Hev & Hjs & Hx & _).
    destruct Hv as (i' & j' & Hi' & Hj' & Hev' & Hjs' & Hx' & _).
    destruct (row_column_unique stride_w i j i' (j' + 1)) as [_ Hcol]; [lia..|].
    subst j. rewrite Z.even_add, Hev' in Hev. discriminate Hev.
  - intros x Hy Hc. apply luma_pair_offsets_In in Hy.
    destruct Hy as (r & c & _ & _ & _ & Hbelow).
    apply in_app_or in Hc.
    destruct Hc as [Hc|Hc]; apply chroma_offsets_In in Hc; try lia;
      destruct Hc as (i & j & _ & Hj & _ & _ & Hx & Hpos); lia.
Qed.
End Distinct.

(** X17: on a mapped region that holds the padded planes the three loops
    load no offset twice: the luma offsets, the Cb offsets and the Cr offsets
    are all different, so every byte that enters the checksum enters it
    once. *)
Theorem planar_loads_are_distinct (videocrc : GstVideocrc) (region : list Z) :
  planes_fit (width videocrc) (height videocrc) (stride_w videocrc)
    (stride_h videocrc) (Z.of_nat (length region)) ->
  exists l,
    planar_run videocrc (Mapped region) = Done (tt, l) /\
    derefs l = planar_offsets videocrc /\
    List.NoDup (derefs l).
Proof.
  intros Hfit.
  destruct (planar_run_exact videocrc region Hfit) as (l & Hrun & Hd & _).
  exists l. split; [exact Hrun|]. split; [exact Hd|].
  rewrite Hd. unfold planar_offsets.
  apply (NoDup_plane_offsets _ _ _ _ _ Hfit).
Qed.

Lemma planar_loads_are_distinct_witness :
  exists l,
    planar_run (negotiated (nv12_info 2 2)) (Mapped (zero_region 6144))
    = Done (tt, l) /\
    derefs l = planar_offsets (negotiated (nv12_info 2 2)) /\
    List.NoDup (derefs l).
Proof.
  apply (planar_loads_are_distinct (negotiated (nv12_info 2 2)) (zero_region 6144)).
  planes_fit_by_computation.
Defined.

(** ** A changed byte changes the checksum *)

Lemma lxor_cancel_r (a b c : Z) : Z.lxor a c = Z.lxor b c -> a = b.
Proof.
  intros Heq. apply (f_equal (fun x => Z.lxor x c)) in Heq.
  rewrite !Z.lxor_assoc, Z.lxor_nilpotent, !Z.lxor_0_r in Heq. exact Heq.
Qed.

Lemma lxor_cancel_l (a b c : Z) : Z.lxor c a = Z.lxor c b -> a = b.
Proof. rewrite !(Z.lxor_comm c). apply lxor_cancel_r. Qed.

Lemma lxor_low_byte (a b : Z) :
  Z.lxor a b mod 2 ^ 8 = Z.lxor (a mod 2 ^ 8) (b mod 2 ^ 8).
Proof.
  apply Z.bits_inj'. intros m Hm.
  rewrite Z.lxor_spec, !Z.testbit_mod_pow2, Z.lxor_spec by lia.
  destruct (m <? 8); reflexivity.
Qed.

Lemma guint_shl_8_low_byte (c : Z) : guint_shl c 8 mod 2 ^ 8 = 0.
Proof.
  unfold guint_shl, to_guint. rewrite Z.shiftl_mul_pow2 by lia. lia.
Qed.

Lemma crc_step_low_byte (T : list Z) (c pix : Z) :
  crc_step_planar T c pix mod 2 ^ 8
  = table_at T (crc_pos_planar c pix) mod 2 ^ 8.
Proof.
  unfold crc_step_planar.
  rewrite lxor_low_byte, guint_shl_8_low_byte. apply Z.lxor_0_l.
Qed.

Lemma crc_pos_planar_range (c pix : Z) : 0 <= crc_pos_planar c pix < 256.
Proof.
  unfold crc_pos_planar. change 0xFF with (Z.ones 8).
  rewrite Z.land_ones by lia. lia.
Qed.

Lemma crc_pos_planar_small (c pix : Z) :
  is_guint c -> is_guint8 pix ->
  crc_pos_planar c pix = Z.lxor (Z.shiftr c 24) pix.
Proof.
  intros Hc Hb. pose proof (shiftr_24_byte c Hc) as Hs.
  unfold crc_pos_planar. change 0xFF with (Z.ones 8).
  rewrite Z.land_ones by lia.
  rewrite (to_guint_small (Z.shiftr c 24)) by (unfold is_guint, G_MAXUINT; lia).
  unfold is_guint8 in Hb.
  pose proof (lxor_below_pow2 8 (Z.shiftr c 24) pix ltac:(lia) Hs ltac:(lia)).
  apply Z.mod_small. lia.
Qed.

Lemma all_apart_NoDup (l : list Z) : all_apart l = true -> List.NoDup l.
Proof.
  induction l as [|x rest IH]; simpl; intros Hall; [constructor|].
  apply andb_prop in Hall. destruct Hall as [Hx Hrest].
  constructor; [|apply IH; exact Hrest].
  intros Hin. rewrite forallb_forall in Hx. specialize (Hx x Hin).
  rewrite Z.eqb_refl in Hx. discriminate Hx.
Qed.

Lemma NoDup_map_apart {A B : Type} (f : A -> B) (l : list A) (x y : A) :
  List.NoDup (map f l) -> In x l -> In y l -> f x = f y -> x = y.
Proof.
  induction l as [|a l IH]; simpl; intros Hnd Hx Hy Heq; [contradiction|].
  inversion Hnd as [|? ? Ha Hrest]; subst.
  destruct Hx as [->|Hx], Hy as [->|Hy].
  - reflexivity.
  - exfalso. apply Ha. rewrite Heq. apply in_map. exact Hy.
  - exfalso. apply Ha. rewrite <- Heq. apply in_map. exact Hx.
  - exact (IH Hrest Hx Hy Heq).
Qed.

Lemma low_bytes_tell_apart (T : list Z) (i j : Z) :
  low_bytes_distinct T = true ->
  0 <= i < 256 -> 0 <= j < 256 ->
  table_at T i mod 2 ^ 8 = table_at T j mod 2 ^ 8 -> i = j.
Proof.
  unfold low_bytes_distinct. intros Hall Hi Hj Heq.
  apply all_apart_NoDup in Hall.
  apply (NoDup_map_apart (fun i => table_at T i mod 2 ^ 8) (zrange 256) i j Hall);
    [apply zrange_In; exact Hi|apply zrange_In; exact Hj|exact Heq].
Qed.

Section Sensitive.
Variable T : list Z.
Hypothesis Hlow : low_bytes_distinct T = true.

Lemma crc_step_same_pos (c1 c2 b1 b2 : Z) :
  crc_step_planar T c1 b1 = crc_step_planar T c2 b2 ->
  crc_pos_planar c1 b1 = crc_pos_planar c2 b2.
Proof.
  intros Heq. apply (f_equal (fun x => x mod 2 ^ 8)) in Heq.
  rewrite !crc_step_low_byte in Heq.
  apply (low_bytes_tell_apart T); [exact Hlow|apply crc_pos_planar_range..|exact Heq].
Qed.

(** For a given sample the update is one-to-one on the accumulator. *)
Lemma crc_step_inj_seed (c1 c2 b : Z) :
  is_guint c1 -> is_guint c2 -> is_guint8 b ->
  crc_step_planar T c1 b = crc_step_planar T c2 b -> c1 = c2.
Proof.
  intros Hc1 Hc2 Hb Heq. pose proof (crc_step_same_pos _ _ _ _ Heq) as Hpos.
  unfold crc_step_planar in Heq. rewrite Hpos in Heq.
  apply lxor_cancel_r in Heq.
  rewrite !crc_pos_planar_small in Hpos by assumption.
  apply lxor_cancel_r in Hpos.
  unfold guint_shl, to_guint in Heq. rewrite !Z.shiftl_mul_pow2 in Heq by lia.
  rewrite !Z.shiftr_div_pow2 in Hpos by lia.
  unfold is_guint, G_MAXUINT in *. lia.
Qed.

(** For a given accumulator the update is one-to-one on the sample. *)
Lemma crc_step_inj_sample (c b1 b2 : Z) :
  is_guint c -> is_guint8 b1 -> is_guint8 b2 ->
  crc_step_planar T c b1 = crc_step_planar T c b2 -> b1 = b2.
Proof.
  intros Hc Hb1 Hb2 Heq. pose proof (crc_step_same_pos _ _ _ _ Heq) as Hpos.
  rewrite !crc_pos_planar_small in Hpos by assumption.
  apply lxor_cancel_l in Hpos. exact Hpos.
Qed.

Lemma crc_fold_range (samples : list Z) (c : Z) :
  is_guint c -> is_guint (crc_fold T c samples).
Proof.
  unfold crc_fold. revert c.
  induction samples as [|b samples IH]; intros c Hc; simpl; [exact Hc|].
  apply IH. apply crc_step_range.
Qed.

Lemma crc_fold_inj_seed (samples : list Z) :
  Forall is_guint8 samples ->
  forall c1 c2, is_guint c1 -> is_guint c2 ->
    crc_fold T c1 samples = crc_fold T c2 samples -> c1 = c2.
Proof.
  unfold crc_fold. induction 1 as [|b samples Hb _ IH]; intros c1 c2 Hc1 Hc2 Heq;
    simpl in Heq; [exact Heq|].
  apply IH in Heq; [|apply crc_step_range..].
  apply (crc_step_inj_seed c1 c2 b); assumption.
Qed.

Lemma crc_fold_one_sample (before after : list Z) (b b' c : Z) :
  Forall is_guint8 after -> is_guint8 b -> is_guint8 b' -> is_guint c ->
  b <> b' ->
  crc_fold T c (before ++ b :: after) <> crc_fold T c (before ++ b' :: after).
Proof.
  intros Hafter Hb Hb' Hc Hne Heq. unfold crc_fold in Heq.
  rewrite !fold_left_app in Heq. simpl in Heq.
  fold (crc_fold T c before) in Heq.
  pose proof (crc_fold_range before c Hc) as Hmid.
  apply (crc_fold_inj_seed after Hafter) in Heq; [|apply crc_step_range..].
  apply crc_step_inj_sample in Heq; [contradiction|assumption..].
Qed.
End Sensitive.

Lemma guint_not_inj (a b : Z) :
  is_guint a -> is_guint b -> guint_not a = guint_not b -> a = b.
Proof.
  unfold is_guint, G_MAXUINT, guint_not, to_guint. intros Ha Hb Heq.
  pose proof (Z.add_lnot_diag a). pose proof (Z.add_lnot_diag b). lia.
Qed.

Lemma Forall_guint8_map (f : Z -> Z) (l : list Z) :
  Forall is_guint8 (map (fun x => to_guint8 (f x)) l).
Proof.
  induction l as [|x l IH]; simpl; constructor; [apply to_guint8_range|exact IH].
Qed.

Lemma Forall_guint8_bytes (l : list Z) : Forall is_guint8 (map to_guint8 l).
Proof. apply (Forall_guint8_map (fun x => x)). Qed.

Lemma default_table_low_bytes :
  low_bytes_distinct (crc32bit_table new_instance) = true.
Proof. vm_compute. reflexivity. Qed.

(** X18: with a table whose entries differ in their low bytes, as the
    table of the default polynomial does, two linear buffers that differ in
    one byte and agree in all the others get different checksums. *)
Theorem linear_byte_change_detected (videocrc : GstVideocrc)
    (before after : list Z) (b b' : Z) (memory memory' : option (list Z)) :
  low_bytes_distinct (crc32bit_table videocrc) = true ->
  to_guint8 b <> to_guint8 b' ->
  Z.of_nat (length (before ++ b :: after)) <= G_MAXINT ->
  low_bytes_distinct (crc32bit_table new_instance) = true /\
  exists line line' videocrc1 videocrc2,
    gst_videocrc_transform_frame_ip
      (MkBuffer None memory (before ++ b :: after)) videocrc
    = Done ((GST_FLOW_OK, line), videocrc1) /\
    gst_videocrc_transform_frame_ip
      (MkBuffer None memory' (before ++ b' :: after)) videocrc
    = Done ((GST_FLOW_OK, line'), videocrc2) /\
    line_crc line <> line_crc line'.
Proof.
  intros Hlow Hne Hlen. split; [apply default_table_low_bytes|].
  set (T := crc32bit_table videocrc) in *.
  assert (Hzero : is_guint 0) by (unfold is_guint, G_MAXUINT; lia).
  assert (Hdiff : linear_checksum T (before ++ b :: after)
                  <> linear_checksum T (before ++ b' :: after)).
  { unfold linear_checksum.
    rewrite !fold_linear_planar by exact Hzero.
    intros Heq. apply guint_not_inj in Heq;
      [|apply crc_fold_range; exact Hzero..].
    rewrite !map_app in Heq. simpl map in Heq.
    revert Heq. apply (crc_fold_one_sample T Hlow);
      [apply Forall_guint8_bytes|apply to_guint8_range..|exact Hzero|exact Hne]. }
  unfold gst_videocrc_transform_frame_ip, frame_crc. simpl ionfd_meta.
  simpl map_data.
  rewrite !linear_crc_exact
    by (rewrite ?length_app in *; simpl length in *; exact Hlen).
  change (crc32bit_table (set_crc 0 videocrc)) with T. cbn [CRC].
  fold (linear_checksum T (before ++ b :: after)).
  fold (linear_checksum T (before ++ b' :: after)).
  pose proof (frame_record_fields (linear_checksum T (before ++ b :: after))
                (set_crc 0 videocrc)) as Hf.
  pose proof (frame_record_fields (linear_checksum T (before ++ b' :: after))
                (set_crc 0 videocrc)) as Hf'.
  cbv zeta in Hf, Hf'.
  destruct Hf as (Hflow & Hline & _). destruct Hf' as (Hflow' & Hline' & _).
  destruct (frame_record (linear_checksum T (before ++ b :: after))
              (set_crc 0 videocrc)) as [[flow line] v1].
  destruct (frame_record (linear_checksum T (before ++ b' :: after))
              (set_crc 0 videocrc)) as [[flow' line'] v2].
  simpl in Hflow, Hline, Hflow', Hline'. subst flow flow'.
  exists line, line', v1, v2. split; [reflexivity|]. split; [reflexivity|].
  rewrite Hline, Hline'. exact Hdiff.
Qed.

Lemma linear_byte_change_detected_witness :
  exists line line' videocrc1 videocrc2,
    gst_videocrc_transform_frame_ip
      (MkBuffer None None ([1; 2] ++ 3 :: [4])) new_instance
    = Done ((GST_FLOW_OK, line), videocrc1) /\
    gst_videocrc_transform_frame_ip
      (MkBuffer None None ([1; 2] ++ 9 :: [4])) new_instance
    = Done ((GST_FLOW_OK, line'), videocrc2) /\
    line_crc line <> line_crc line'.
Proof.
  apply (linear_byte_change_detected new_instance [1; 2] [4] 3 9 None None).
  - vm_compute. reflexivity.
  - vm_compute. intros Heq. discriminate Heq.
  - vm_compute. intros Hcmp. discriminate Hcmp.
Defined.

Lemma NoDup_app_apart {A : Type} (l l' : list A) (x : A) :
  List.NoDup (l ++ l') -> In x l -> ~ In x l'.
Proof.
  induction l as [|a l IH]; simpl; intros Hnd Hin Hin'; [contradiction|].
  inversion Hnd as [|? ? Ha Hrest]; subst.
  destruct Hin as [->|Hin].
  - apply Ha. apply in_or_app. right. exact Hin'.
  - exact (IH Hrest Hin Hin').
Qed.

Lemma guint_not_range (a : Z) : is_guint (guint_not a).
Proof. apply to_guint_range. Qed.

Lemma peek_samples_guint8 (region offs : list Z) :
  Forall is_guint8 (map (peek region) offs).
Proof. apply (Forall_guint8_map (fun off => region !!! Z.to_nat off)). Qed.

Section Stages.
Variable T : list Z.
Hypothesis Hlow : low_bytes_distinct T = true.
Variables region region' : list Z.
Variable x : Z.
Hypothesis Hx : peek region x <> peek region' x.

(** One plane of the cascade: the samples folded in, then the complement. *)
Lemma stage_same (offs : list Z) (c : Z) :
  (forall off, In off offs -> peek region off = peek region' off) ->
  guint_not (crc_fold T c (map (peek region) offs))
  = guint_not (crc_fold T c (map (peek region') offs)).
Proof. intros Hagree. rewrite (map_peek_agree _ _ _ Hagree). reflexivity. Qed.

Lemma stage_keeps_apart (offs : list Z) (c1 c2 : Z) :
  (forall off, In off offs -> peek region off = peek region' off) ->
  is_guint c1 -> is_guint c2 -> c1 <> c2 ->
  guint_not (crc_fold T c1 (map (peek region) offs))
  <> guint_not (crc_fold T c2 (map (peek region') offs)).
Proof.
  intros Hagree Hc1 Hc2 Hne Heq.
  rewrite (map_peek_agree _ _ _ Hagree) in Heq.
  apply guint_not_inj in Heq; [|apply crc_fold_range; assumption..].
  apply (crc_fold_inj_seed T Hlow) in Heq;
    [contradiction|apply peek_samples_guint8|assumption..].
Qed.

Lemma stage_sets_apart (offs : list Z) (c : Z) :
  List.NoDup offs -> In x offs ->
  (forall off, In off offs -> off <> x -> peek region off = peek region' off) ->
  is_guint c ->
  guint_not (crc_fold T c (map (peek region) offs))
  <> guint_not (crc_fold T c (map (peek region') offs)).
Proof.
  intros Hnd Hin Hagree Hc Heq.
  apply guint_not_inj in Heq; [|apply crc_fold_range; assumption..].
  destruct (in_split x offs Hin) as (A & B & ->).
  pose proof (List.NoDup_remove_2 _ _ _ Hnd) as Hout.
  assert (HA : map (peek region) A = map (peek region') A).
  { apply map_peek_agree. intros off Hoff. apply Hagree.
    - apply in_or_app. left. exact Hoff.
    - intros ->. apply Hout. apply in_or_app. left. exact Hoff. }
  assert (HB : map (peek region) B = map (peek region') B).
  { apply map_peek_agree. intros off Hoff. apply Hagree.
    - apply in_or_app. right. right. exact Hoff.
    - intros ->. apply Hout. apply in_or_app. right. exact Hoff. }
  rewrite !map_app in Heq. simpl map in Heq. rewrite HA, HB in Heq.
  revert Heq. apply (crc_fold_one_sample T Hlow);
    [apply peek_samples_guint8|apply to_guint8_range..|exact Hc|exact Hx].
Qed.

Lemma cascade_sets_apart (Y Cb Cr : list Z) :
  List.NoDup (Y ++ Cb ++ Cr) -> In x (Y ++ Cb ++ Cr) ->
  (forall off, In off (Y ++ Cb ++ Cr) -> off <> x ->
     peek region off = peek region' off) ->
  guint_not
    (crc_fold T
       (guint_not
          (crc_fold T (guint_not (crc_fold T 0 (map (peek region) Y)))
             (map (peek region) Cb)))
       (map (peek region) Cr))
  <> guint_not
       (crc_fold T
          (guint_not
             (crc_fold T (guint_not (crc_fold T 0 (map (peek region') Y)))
                (map (peek region') Cb)))
          (map (peek region') Cr)).
Proof.
  intros Hnd Hin Hagree.
  assert (Hzero : is_guint 0) by (unfold is_guint, G_MAXUINT; lia).
  pose proof (List.NoDup_app_remove_l _ _ Hnd) as Hnd'.
  assert (HinY : forall off, In off Y -> In off (Y ++ Cb ++ Cr))
    by (intros off H; apply in_or_app; left; exact H).
  assert (HinCb : forall off, In off Cb -> In off (Y ++ Cb ++ Cr))
    by (intros off H; apply in_or_app; right; apply in_or_app; left; exact H).
  assert (HinCr : forall off, In off Cr -> In off (Y ++ Cb ++ Cr))
    by (intros off H; apply in_or_app; right; apply in_or_app; right; exact H).
  apply in_app_or in Hin. destruct Hin as [Hy|Hc].
  - pose proof (NoDup_app_apart _ _ x Hnd Hy) as Hout.
    apply stage_keeps_apart; [|apply guint_not_range..|].
    { intros off Hoff. apply Hagree; [apply HinCr; exact Hoff|].
      intros ->. apply Hout. apply in_or_app. right. exact Hoff. }
    apply stage_keeps_apart; [|apply guint_not_range..|].
    { intros off Hoff. apply Hagree; [apply HinCb; exact Hoff|].
      intros ->. apply Hout. apply in_or_app. left. exact Hoff. }
    apply stage_sets_apart;
      [apply (List.NoDup_app_remove_r _ _ Hnd)|exact Hy| |exact Hzero].
    intros off Hoff. apply Hagree. apply HinY. exact Hoff.
  - assert (HoutY : ~ In x Y).
    { intros Hy. apply (NoDup_app_apart _ _ x Hnd Hy). exact Hc. }
    assert (HsameY : guint_not (crc_fold T 0 (map (peek region) Y))
                     = guint_not (crc_fold T 0 (map (peek region') Y))).
    { apply stage_same. intros off Hoff. apply Hagree; [apply HinY; exact Hoff|].
      intros ->. contradiction. }
    rewrite <- HsameY. clear HsameY.
    apply in_app_or in Hc. destruct Hc as [Hcb|Hcr].
    + pose proof (NoDup_app_apart _ _ x Hnd' Hcb) as Hout.
      apply stage_keeps_apart; [|apply guint_not_range..|].
      { intros off Hoff. apply Hagree; [apply HinCr; exact Hoff|].
        intros ->. contradiction. }
      apply stage_sets_apart;
        [apply (List.NoDup_app_remove_r _ _ Hnd')|exact Hcb|
         |apply guint_not_range].
      intros off Hoff. apply Hagree. apply HinCb. exact Hoff.
    + assert (HoutCb : ~ In x Cb).
      { intros Hcb. apply (NoDup_app_apart _ _ x Hnd' Hcb). exact Hcr. }
      assert (HsameCb :
        guint_not (crc_fold T (guint_not (crc_fold T 0 (map (peek region) Y)))
                     (map (peek region) Cb))
        = guint_not (crc_fold T (guint_not (crc_fold T 0 (map (peek region) Y)))
                       (map (peek region') Cb))).
      { apply stage_same. intros off Hoff. apply Hagree; [apply HinCb; exact Hoff|].
        intros ->. contradiction. }
      rewrite <- HsameCb. clear HsameCb.
      apply stage_sets_apart;
        [apply (List.NoDup_app_remove_l _ _ Hnd')|exact Hcr|
         |apply guint_not_range].
      intros off Hoff. apply Hagree. apply HinCr. exact Hoff.
Qed.
End Stages.

(** X19: with a table whose entries differ in their low bytes, as the
    table of the default polynomial does, two mapped regions that hold the
    padded planes and differ in the sample at one offset the loops walk,
    luma, Cb or Cr, while agreeing at all the other offsets walked, get
    different checksums. *)
Theorem planar_sample_change_detected (videocrc : GstVideocrc)
    (region region' : list Z) (x : Z) :
  low_bytes_distinct (crc32bit_table videocrc) = true ->
  length region = length region' ->
  planes_fit (width videocrc) (height videocrc) (stride_w videocrc)
    (stride_h videocrc) (Z.of_nat (length region)) ->
  In x (planar_offsets videocrc) ->
  peek region x <> peek region' x ->
  (forall off, In off (planar_offsets videocrc) -> off <> x ->
     peek region off = peek region' off) ->
  exists l l',
    planar_run videocrc (Mapped region) = Done (tt, l) /\
    planar_run videocrc (Mapped region') = Done (tt, l') /\
    CRC l <> CRC l'.
Proof.
  intros Hlow Hlen Hfit Hin Hx Hagree.
  destruct (planar_run_exact videocrc region Hfit) as (l & Hrun & _ & Hc).
  assert (Hfit' : planes_fit (width videocrc) (height videocrc) (stride_w videocrc)
                    (stride_h videocrc) (Z.of_nat (length region')))
    by (rewrite <- Hlen; exact Hfit).
  destruct (planar_run_exact videocrc region' Hfit') as (l' & Hrun' & _ & Hc').
  exists l, l'. split; [exact Hrun|]. split; [exact Hrun'|].
  rewrite Hc, Hc'.
  apply (cascade_sets_apart (crc32bit_table videocrc) Hlow region region' x Hx);
    [apply (NoDup_plane_offsets _ _ _ _ _ Hfit)|exact Hin|exact Hagree].
Qed.

Lemma planar_sample_change_detected_witness :
  exists l l',
    planar_run (negotiated (nv12_info 2 2)) (Mapped (zero_region 6144))
    = Done (tt, l) /\
    planar_run (negotiated (nv12_info 2 2)) (Mapped (zero_region_but 6144 4097 255))
    = Done (tt, l') /\
    CRC l <> CRC l'.
Proof.
  apply (planar_sample_change_detected (negotiated (nv12_info 2 2))
           (zero_region 6144) (zero_region_but 6144 4097 255) 4097).
  - vm_compute. reflexivity.
  - vm_compute. reflexivity.
  - planes_fit_by_computation.
  - vm_compute. tauto.
  - vm_compute. intros Heq. discriminate Heq.
  - intros off Hin Hne. vm_compute in Hin.
    repeat (destruct Hin as [<-|Hin];
            [first [vm_compute; reflexivity | exfalso; apply Hne; reflexivity]|]).
    destruct Hin.
Defined.

(** * A mapping that failed, in general *)













